(** * Webcam inference loops: post-processing, tensor lifetime and scheduling

    A shallow embedding of the TypeScript sources of the repository:

    - [RealTimeDetector]  the YOLO component: [processOutput],
      [drawBoundingBoxes], [runDetectionLoop], [startLoop];
    - [DetectionLoop]     the stand-alone [runDetectionLoop] helper;
    - [Classifier]        the MobileNet component: [predict] and its top-3;
    - [CocoApp]           the coco-ssd component: [detectObjects] on a timer,
      with [drawDetection];
    - [ModelLoader]       [loadCocoSsdModel] and the effect that calls it;
    - [SplitInference]    [executeInference].

    Modelling conventions.

    - A JavaScript [number] is an exact rational ([Q]).  The sources only
      add, subtract, multiply, divide and compare finite values; rounding,
      NaN and the infinities are outside the model, and equality of numbers
      is [Qeq].
    - The TensorFlow.js runtime is state: a counter of tensor handles, the
      set of handles that are not disposed ([tf.memory().numTensors] is its
      size), and the list of library calls made.  Code that calls it is
      written in a state-and-exception monad [M].
    - TensorFlow.js itself is not part of the repository.  Module [tf]
      models the calls the sources make, following the library's documented
      behaviour; each definition says which call it stands for.
    - [await] is sequencing inside one tick; the interleaving of several
      ticks is modelled separately by the event steps of the two loops. *)

From Stdlib Require Import QArith Qminmax Lqa ZArith.
From stdpp Require Import base list sorting gmap strings pretty.

Local Open Scope Q_scope.

(** ** JavaScript numbers and arrays *)

Module JS.

(** [x < y] and [x <= y] on numbers, as booleans. *)
Definition ltb (x y : Q) : bool := negb (Qle_bool y x).
Definition leb (x y : Q) : bool := Qle_bool x y.

(** [Array.prototype.sort(compare)]: [a] stays before [b] when
    [compare(a, b) <= 0].  The sort is stable, so with a consistent
    comparator its result is the one of insertion from the right. *)
Fixpoint insertBy {A : Type} (compare : A -> A -> Q) (a : A) (l : list A) : list A :=
  match l with
  | [] => [a]
  | b :: l' =>
      if leb (compare a b) 0 then a :: b :: l' else b :: insertBy compare a l'
  end.

Fixpoint sort {A : Type} (compare : A -> A -> Q) (l : list A) : list A :=
  match l with
  | [] => []
  | a :: l' => insertBy compare a (sort compare l')
  end.

(** [array.slice(0, n)]. *)
Definition slice0 {A : Type} (n : nat) (l : list A) : list A := take n l.

End JS.

(** ** The TensorFlow.js runtime *)

(** Library calls that are recorded. *)
Inductive tfop :=
| OpFromPixels | OpResizeBilinear | OpResizeNearestNeighbor | OpToFloat
| OpExpandDims | OpDiv | OpSub | OpMul | OpAbs | OpMax | OpRound | OpZeros
| OpTensor | OpTranspose | OpTensor2d | OpTensor1d | OpGather
| OpNonMaxSuppression | OpExecute | OpPredict | OpDetect.

(** A decoded video frame. *)
Record Frame := mkFrame { frameWidth : nat; frameHeight : nat; pixels : list Z }.

(** The value of a tensor whose numbers the sources never read: the
    expression that produced it. *)
Inductive sym :=
| SFrame (f : Frame)
| SNum (q : Q)
| SOp0 (op : tfop)
| SOp1 (op : tfop) (a : sym)
| SOp2 (op : tfop) (a b : sym)
| SResize (op : tfop) (a : sym) (height width : nat).

(** What is painted on the 2D canvas, oldest first. *)
Inductive drawcmd :=
| StrokeRect (x y w h : Q)
| FillRect (x y w h : Q)
| FillText (className : option string) (score : Q) (x y : Q).

(** A line written to the console. *)
Inductive logmsg :=
| LogText (s : string)
| LogShape (t : nat)
| LogPrint (t : nat).

(** A ranked class of the classifier. *)
Record Prediction := mkPrediction { className : string; probability : Q }.

Record world := mkWorld {
  nextId : nat;                 (* next tensor handle *)
  live : gset nat;              (* handles that are not disposed *)
  oplog : list tfop;            (* library calls so far, oldest first *)
  overlay : list drawcmd;       (* content of the canvas *)
  console : list logmsg;        (* console output *)
  shown : list Prediction       (* React state [predictions] *)
}.

(** [tf.memory().numTensors]. *)
Definition numTensors (w : world) : nat := size (live w).

Inductive result (A : Type) :=
| Ok (a : A)
| Throw (msg : string).
Arguments Ok {A} a.
Arguments Throw {A} msg.

Definition M (A : Type) : Type := world -> result A * world.

Definition ret {A : Type} (a : A) : M A := fun w => (Ok a, w).

Definition bind {A B : Type} (m : M A) (k : A -> M B) : M B :=
  fun w =>
    match m w with
    | (Ok a, w') => k a w'
    | (Throw e, w') => (Throw e, w')
    end.

Definition throw {A : Type} (msg : string) : M A := fun w => (Throw msg, w).

(** The body of an [async] function whose promise nobody awaits: an
    exception rejects the promise and goes no further. *)
Definition attempt {A : Type} (m : M A) : M (result A) :=
  fun w => let '(r, w') := m w in (Ok r, w').

Declare Scope M_scope.
Delimit Scope M_scope with M.
Notation "x <- m ;; k" := (bind m (fun x => k))
  (at level 100, m at next level, right associativity) : M_scope.
Notation "m ;; k" := (bind m (fun _ => k))
  (at level 100, right associativity) : M_scope.
Local Open Scope M_scope.

(** A tensor handle together with its value. *)
Record Tensor (A : Type) := mkTensor { tid : nat; tval : A }.
Arguments mkTensor {A} tid tval.
Arguments tid {A} t.
Arguments tval {A} t.

(** An [HTMLVideoElement]: [readyState] is 0..4 ([HAVE_CURRENT_DATA] is 2,
    [HAVE_FUTURE_DATA] 3, [HAVE_ENOUGH_DATA] 4). *)
Record Video := mkVideo {
  readyState : nat;
  videoWidth : Q;
  videoHeight : Q;
  currentFrame : Frame
}.

Definition HAVE_CURRENT_DATA : nat := 2.

(** The frame of a video can be decoded once it has current data. *)
Definition decodable (video : Video) : bool := (HAVE_CURRENT_DATA <=? readyState video)%nat.

(** An [HTMLCanvasElement]: whether [getContext('2d')] gives a context,
    its size, and the width [measureText] reports for a label. *)
Record Canvas := mkCanvas {
  has2d : bool;
  canvasWidth : Q;
  canvasHeight : Q;
  measureText : option string -> Q -> Q
}.

(** A loaded [tf.GraphModel]: the shape of its first input and what it
    computes from an input tensor ([None]: the call throws). *)
Record GraphModel := mkGraphModel {
  inputShape : list nat;
  run : sym -> option (list Q)
}.

Definition Qnat (n : nat) : Q := inject_Z (Z.of_nat n).

Module tf.

(** The runtime after the call [op] has made a tensor, and after the
    tensor [i] has been disposed. *)
Definition allocate (op : tfop) (w : world) : world :=
  mkWorld (S (nextId w)) ({[ nextId w ]} ∪ live w) (oplog w ++ [op])
          (overlay w) (console w) (shown w).

Definition release (i : nat) (w : world) : world :=
  mkWorld (nextId w) (live w ∖ {[ i ]}) (oplog w)
          (overlay w) (console w) (shown w).

(** Every operation returns a fresh tensor. *)
Definition newTensor {A : Type} (op : tfop) (v : A) : M (Tensor A) :=
  fun w => (Ok (mkTensor (nextId w) v), allocate op w).

(** Using a disposed tensor throws. *)
Definition throwIfDisposed {A : Type} (t : Tensor A) : M unit :=
  fun w =>
    if decide (tid t ∈ live w) then (Ok tt, w)
    else (Throw "Tensor is disposed.", w).

(** [t.dispose()]; disposing twice is harmless. *)
Definition disposeId (i : nat) : M unit :=
  fun w => (Ok tt, release i w).

Definition dispose {A : Type} (t : Tensor A) : M unit := disposeId (tid t).

(** [tf.dispose([t1, ..., tn])]. *)
Fixpoint disposeAll (ids : list nat) : M unit :=
  match ids with
  | [] => ret tt
  | i :: ids' => disposeId i ;; disposeAll ids'
  end.

(** The end of a [tf.tidy] scope opened when the next handle was [start]:
    every tensor made since then is disposed, except the returned ones. *)
Definition endScope (start : nat) (kept : list nat) (w : world) : world :=
  mkWorld (nextId w)
          (filter (fun i => (i < start)%nat \/ i ∈ kept) (live w))
          (oplog w) (overlay w) (console w) (shown w).

(** [tf.tidy(fn)]; [keep] lists the tensors in the value [fn] returns. *)
Definition tidy {A : Type} (keep : A -> list nat) (fn : M A) : M A :=
  fun w =>
    match fn w with
    | (Ok a, w') => (Ok a, endScope (nextId w) (keep a) w')
    | (Throw e, w') => (Throw e, endScope (nextId w) [] w')
    end.

(** [t.dataSync()], [t.data()], [t.arraySync()], [t.array()]. *)
Definition read {A : Type} (t : Tensor A) : M A :=
  throwIfDisposed t ;; ret (tval t).

(** A unary operation on a tensor that is only tracked. *)
Definition op1 (op : tfop) (t : Tensor sym) : M (Tensor sym) :=
  throwIfDisposed t ;; newTensor op (SOp1 op (tval t)).

(** An operation on a tracked tensor and a number. *)
Definition opNum (op : tfop) (t : Tensor sym) (c : Q) : M (Tensor sym) :=
  throwIfDisposed t ;; newTensor op (SOp2 op (tval t) (SNum c)).

(** A binary operation on two tensors that are only tracked. *)
Definition op2 (op : tfop) (t u : Tensor sym) : M (Tensor sym) :=
  throwIfDisposed t ;; throwIfDisposed u ;;
  newTensor op (SOp2 op (tval t) (tval u)).

(** [tf.browser.fromPixels(video)]: throws until the video has a frame. *)
Definition fromPixels (video : Video) : M (Tensor sym) :=
  if decodable video then newTensor OpFromPixels (SFrame (currentFrame video))
  else throw "The video element has not loaded data yet.".

(** [tf.image.resizeBilinear(t, [h, w])], [t.resizeNearestNeighbor([h, w])]. *)
Definition resize (op : tfop) (t : Tensor sym) (height width : nat) : M (Tensor sym) :=
  throwIfDisposed t ;; newTensor op (SResize op (tval t) height width).

(** [model.execute(t)] and [model.predict(t)]. *)
Definition execute (op : tfop) (model : GraphModel) (t : Tensor sym) : M (Tensor (list Q)) :=
  throwIfDisposed t ;;
  match run model (tval t) with
  | Some output => newTensor op output
  | None => throw "model execution failed"
  end.

(** [tf.tensor(data, [rows, cols])]: the rows of the matrix; the shape
    must match the number of values. *)
Fixpoint reshape2d (rows cols : nat) (data : list Q) : list (list Q) :=
  match rows with
  | O => []
  | S r => take cols data :: reshape2d r cols (drop cols data)
  end.

Definition tensor (data : list Q) (rows cols : nat) : M (Tensor (list (list Q))) :=
  if (length data =? rows * cols)%nat
  then newTensor OpTensor (reshape2d rows cols data)
  else throw "Based on the provided shape, the tensor should have a different number of values".

(** [t.transpose()] of a matrix with [cols] columns. *)
Fixpoint transposeRows (cols : nat) (rows : list (list Q)) : list (list Q) :=
  match cols with
  | O => []
  | S c => map (hd 0) rows :: transposeRows c (map (@tl Q) rows)
  end.

Definition transpose (cols : nat) (t : Tensor (list (list Q))) : M (Tensor (list (list Q))) :=
  throwIfDisposed t ;; newTensor OpTranspose (transposeRows cols (tval t)).

(** [tf.tensor2d(rows)]: the rows must have one length. *)
Definition rectangular (rows : list (list Q)) : bool :=
  match rows with
  | [] => true
  | r :: rows' => forallb (fun r' => (length r' =? length r)%nat) rows'
  end.

Definition tensor2d (rows : list (list Q)) : M (Tensor (list (list Q))) :=
  if rectangular rows then newTensor OpTensor2d rows
  else throw "tensor2d: rows of different lengths".

(** [tf.tensor1d(values)] and [tf.tensor1d(values, 'int32')]. *)
Definition tensor1d {A : Type} (values : list A) : M (Tensor (list A)) :=
  newTensor OpTensor1d values.

(** [tf.gather(x, indices)] along the first axis; an index out of range
    throws. *)
Fixpoint gatherRows {A : Type} (x : list A) (indices : list nat) : option (list A) :=
  match indices with
  | [] => Some []
  | i :: indices' =>
      match x !! i, gatherRows x indices' with
      | Some a, Some l => Some (a :: l)
      | _, _ => None
      end
  end.

Definition gather {A : Type} (x : Tensor (list A)) (indices : Tensor (list nat))
  : M (Tensor (list A)) :=
  throwIfDisposed x ;; throwIfDisposed indices ;;
  match gatherRows (tval x) (tval indices) with
  | Some l => newTensor OpGather l
  | None => throw "GatherV2: the index value is out of range"
  end.

(** *** [tf.image.nonMaxSuppressionAsync(boxes, scores, maxOutputSize,
    iouThreshold)]

    The library documents [boxes] as a tensor of shape [[numBoxes, 4]] in
    which each row is [[y1, x1, y2, x2]], two opposite corners of a box, in
    either order.  With the default [scoreThreshold] (minus infinity) and
    [softNmsSigma] (0) every box is a candidate; candidates are visited by
    decreasing score, equal scores by increasing index; a candidate is
    dropped when its overlap with an already selected box reaches
    [iouThreshold]; selection stops at [maxOutputSize] boxes, a bound that
    is first lowered to the number of boxes.  The definitions follow the
    functions of the library's implementation of the same names. *)

Record Candidate := mkCandidate { score : Q; boxIndex : nat }.

Definition coord (box : list Q) (k : nat) : Q := nth k box 0.

Definition intersectionOverUnion (boxes : list (list Q)) (i j : nat) : Q :=
  let iCoord := nth i boxes [] in
  let jCoord := nth j boxes [] in
  let yminI := Qmin (coord iCoord 0) (coord iCoord 2) in
  let xminI := Qmin (coord iCoord 1) (coord iCoord 3) in
  let ymaxI := Qmax (coord iCoord 0) (coord iCoord 2) in
  let xmaxI := Qmax (coord iCoord 1) (coord iCoord 3) in
  let yminJ := Qmin (coord jCoord 0) (coord jCoord 2) in
  let xminJ := Qmin (coord jCoord 1) (coord jCoord 3) in
  let ymaxJ := Qmax (coord jCoord 0) (coord jCoord 2) in
  let xmaxJ := Qmax (coord jCoord 1) (coord jCoord 3) in
  let areaI := (ymaxI - yminI) * (xmaxI - xminI) in
  let areaJ := (ymaxJ - yminJ) * (xmaxJ - xminJ) in
  if JS.leb areaI 0 || JS.leb areaJ 0 then 0
  else
    let intersectionYmin := Qmax yminI yminJ in
    let intersectionXmin := Qmax xminI xminJ in
    let intersectionYmax := Qmin ymaxI ymaxJ in
    let intersectionXmax := Qmin xmaxI xmaxJ in
    let intersectionArea :=
      Qmax (intersectionYmax - intersectionYmin) 0 *
      Qmax (intersectionXmax - intersectionXmin) 0 in
    intersectionArea / (areaI + areaJ - intersectionArea).

(** Candidates are kept sorted by increasing score, the larger index first
    among equal scores, and taken from the end. *)
Definition ascendingComparator (c1 c2 : Candidate) : Q :=
  if Qeq_bool (score c1 - score c2) 0
  then inject_Z (Z.of_nat (boxIndex c2) - Z.of_nat (boxIndex c1))
  else score c1 - score c2.

(** The selection loop; [candidates] is in the order of visit and
    [selected] in the order of selection. *)
Fixpoint selectLoop (boxes : list (list Q)) (maxOutputSize : nat) (iouThreshold : Q)
  (candidates : list Candidate) (selected : list nat) : list nat :=
  match candidates with
  | [] => selected
  | candidate :: rest =>
      if (length selected <? maxOutputSize)%nat then
        if existsb
             (fun j => JS.leb iouThreshold
                         (intersectionOverUnion boxes (boxIndex candidate) j))
             (rev selected)
        then selectLoop boxes maxOutputSize iouThreshold rest selected
        else selectLoop boxes maxOutputSize iouThreshold rest
                        (selected ++ [boxIndex candidate])
      else selected
  end.

Definition nonMaxSuppressionImpl (boxes : list (list Q)) (scores : list Q)
  (maxOutputSize : nat) (iouThreshold : Q) : list nat :=
  let candidates := imap (fun i s => mkCandidate s i) scores in
  let sorted := JS.sort ascendingComparator candidates in
  selectLoop boxes maxOutputSize iouThreshold (rev sorted) [].

Definition nonMaxSuppressionAsync
  (boxes : Tensor (list (list Q))) (scores : Tensor (list Q))
  (maxOutputSize : nat) (iouThreshold : Q) : M (Tensor (list nat)) :=
  throwIfDisposed boxes ;; throwIfDisposed scores ;;
  if forallb (fun b => (length b =? 4)%nat) (tval boxes)
     && (length (tval scores) =? length (tval boxes))%nat
     && JS.leb 0 iouThreshold && JS.leb iouThreshold 1
  then
    newTensor OpNonMaxSuppression
      (nonMaxSuppressionImpl (tval boxes) (tval scores)
         (Nat.min maxOutputSize (length (tval boxes))) iouThreshold)
  else throw "nonMaxSuppression: invalid arguments".

End tf.

(** ** The 2D canvas context *)

Module ctx2d.

(** The canvas after its content has become [o]. *)
Definition repaint (o : list drawcmd) (w : world) : world :=
  mkWorld (nextId w) (live w) (oplog w) o (console w) (shown w).

Definition paint (c : drawcmd) : M unit :=
  fun w => (Ok tt, repaint (overlay w ++ [c]) w).

(** [ctx.clearRect(0, 0, ctx.canvas.width, ctx.canvas.height)]. *)
Definition clearAll : M unit :=
  fun w => (Ok tt, repaint [] w).

Definition strokeRect (x y w h : Q) : M unit := paint (StrokeRect x y w h).
Definition fillRect (x y w h : Q) : M unit := paint (FillRect x y w h).
Definition fillText (className : option string) (score : Q) (x y : Q) : M unit :=
  paint (FillText className score x y).

End ctx2d.

(** ** The YOLO component *)

Module RealTimeDetector.

Definition confidenceThreshold : Q := 0.5.

(** The arrays [boxes], [scores] and [classes] that [processOutput] fills. *)
Record arrays := mkArrays {
  boxes : list (list Q);
  scores : list Q;
  classes : list Z
}.

(** [classScores.forEach((score, i) => { if (score > maxScore) { maxScore =
    score; classId = i; } })], from index [i] on. *)
Fixpoint scanScores (classScores : list Q) (i : Z) (maxScore : Q) (classId : Z) : Q * Z :=
  match classScores with
  | [] => (maxScore, classId)
  | score :: rest =>
      if JS.ltb maxScore score
      then scanScores rest (i + 1)%Z score i
      else scanScores rest (i + 1)%Z maxScore classId
  end.

(** The body of [proposals.forEach].  A row with fewer than four entries
    has no class scores: its [maxScore] stays [-1] and nothing is pushed. *)
Definition pushProposal (widthRatio heightRatio : Q) (acc : arrays) (proposal : list Q) : arrays :=
  match proposal with
  | x_center :: y_center :: width :: height :: classScores =>
      let '(maxScore, classId) := scanScores classScores 0%Z (-1) (-1)%Z in
      if JS.ltb confidenceThreshold maxScore then
        mkArrays
          (boxes acc ++ [[ (x_center - width / 2) * widthRatio;
                           (y_center - height / 2) * heightRatio;
                           width * widthRatio;
                           height * heightRatio ]])
          (scores acc ++ [maxScore])
          (classes acc ++ [classId])
      else acc
  | _ => acc
  end.

Definition collect (widthRatio heightRatio : Q) (proposals : list (list Q)) : arrays :=
  fold_left (pushProposal widthRatio heightRatio) proposals (mkArrays [] [] []).

Definition numAttributes : nat := 84.
Definition numProposals : nat := Z.to_nat 8400.

Definition processOutput (predictions : Tensor (list Q)) (widthRatio heightRatio : Q)
  : M (list (list Q) * list Q * list Z) :=
  data <- tf.read predictions ;;
  raw <- tf.tensor data numAttributes numProposals ;;
  transposed <- tf.transpose numProposals raw ;;
  proposals <- tf.read transposed ;;
  tf.dispose transposed ;;
  let acc := collect widthRatio heightRatio proposals in
  if (length (boxes acc) =? 0)%nat then ret ([], [], [])
  else
    boxTensors <- tf.tensor2d (boxes acc) ;;
    scoreTensors <- tf.tensor1d (scores acc) ;;
    indices <- tf.nonMaxSuppressionAsync boxTensors scoreTensors 20 0.45 ;;
    gatheredBoxes <- tf.gather boxTensors indices ;;
    finalBoxes <- tf.read gatheredBoxes ;;
    gatheredScores <- tf.gather scoreTensors indices ;;
    finalScores <- tf.read gatheredScores ;;
    classTensors <- tf.tensor1d (classes acc) ;;
    gatheredClasses <- tf.gather classTensors indices ;;
    finalClasses <- tf.read gatheredClasses ;;
    tf.disposeAll [tid boxTensors; tid scoreTensors; tid indices] ;;
    ret (finalBoxes, finalScores, finalClasses).

Section Rendering.

(** The table of class names, [../data/coco_classes]. *)
Variable COCO_CLASSES : list string.

(** [COCO_CLASSES[classes[i]]]. *)
Definition cocoName (classes : list Z) (i : nat) : option string :=
  match classes !! i with
  | Some c => if (c <? 0)%Z then None else COCO_CLASSES !! Z.to_nat c
  | None => None
  end.

(** [parseInt(ctx.font, 10)] for the font ['16px sans-serif']. *)
Definition textHeight : Q := 16.

(** The [for] loop of [drawBoundingBoxes], from index [i] on; [scores] is
    what is left of the array.  Canvas calls with an undefined coordinate
    paint nothing. *)
Fixpoint drawFrom (ctx : Canvas) (boxes : list (list Q)) (classes : list Z)
  (i : nat) (scores : list Q) : M unit :=
  match scores with
  | [] => ret tt
  | score_i :: rest =>
      match boxes !! i with
      | None => throw "TypeError: boxes[i] is not iterable"
      | Some (x :: y :: width :: height :: _) =>
          let mirroredX := canvasWidth ctx - x - width in
          ctx2d.strokeRect mirroredX y width height ;;
          let textWidth := measureText ctx (cocoName classes i) score_i in
          let labelY := if JS.ltb textHeight y then y else textHeight + 4 in
          ctx2d.fillRect mirroredX (labelY - textHeight) (textWidth + 4) (textHeight + 4) ;;
          ctx2d.fillText (cocoName classes i) score_i (mirroredX + 2) labelY ;;
          drawFrom ctx boxes classes (S i) rest
      | Some _ => drawFrom ctx boxes classes (S i) rest
      end
  end.

Definition drawBoundingBoxes (ctx : Canvas) (boxes : list (list Q)) (scores : list Q)
  (classes : list Z) : M unit :=
  ctx2d.clearAll ;;
  drawFrom ctx boxes classes 0 scores.

(** [runDetectionLoop] once its guards have passed. *)
Definition detectionTick (model : GraphModel) (video : Video) (ctx : Canvas) : M unit :=
  let inputHeight := nth 1 (inputShape model) 0%nat in
  let inputWidth := nth 2 (inputShape model) 0%nat in
  tensor <- tf.tidy (fun t : Tensor sym => [tid t])
              (frame <- tf.fromPixels video ;;
               resized <- tf.resize OpResizeBilinear frame inputHeight inputWidth ;;
               scaled <- tf.opNum OpDiv resized 255 ;;
               tf.opNum OpExpandDims scaled 0) ;;
  predictions <- tf.execute OpExecute model tensor ;;
  tf.dispose tensor ;;
  output <- processOutput predictions (videoWidth video / Qnat inputWidth)
                                     (videoHeight video / Qnat inputHeight) ;;
  let '(boxes, scores, classes) := output in
  drawBoundingBoxes ctx boxes scores classes ;;
  tf.dispose predictions.

(** The guards of [runDetectionLoop]: [None] when the tick returns at
    once, otherwise what it goes on to do. *)
Definition guarded (model : option GraphModel) (video : option Video)
  (canvas : option Canvas) : option (M unit) :=
  match model, video, canvas with
  | Some model, Some video, Some canvas =>
      if (readyState video <? 3)%nat then None
      else if has2d canvas then Some (detectionTick model video canvas)
      else None
  | _, _, _ => None
  end.

Definition runDetectionLoop (model : option GraphModel) (video : option Video)
  (canvas : option Canvas) : M unit :=
  match guarded model video canvas with
  | Some tick => tick
  | None => ret tt
  end.

(** *** [startLoop]: ticks driven by [requestAnimationFrame] *)

(** What [model], [videoRef.current] and [canvasRef.current] are when a
    tick starts. *)
Record Env := mkEnv {
  envModel : option GraphModel;
  envVideo : option Video;
  envCanvas : option Canvas
}.

(** What has happened in the loop, for stating the order of events; it
    influences nothing. *)
Inductive mark :=
| Began            (* a tick passed its guards and is awaited *)
| Skipped          (* a tick returned at its guards *)
| Finished         (* an awaited tick returned: it has painted and disposed *)
| Failed           (* an awaited tick threw *)
| Requested.       (* [requestAnimationFrame(loop)] was called *)

Record controller := mkController {
  loopStarted : bool;            (* the state [loopStarted] *)
  framesRequested : nat;         (* pending [requestAnimationFrame(loop)] callbacks *)
  inflight : list (M unit);      (* ticks that have started and are awaited *)
  theWorld : world;
  history : list mark            (* newest first *)
}.

Inductive event :=
| StartLoop (e : Env)            (* [startLoop()] is called *)
| AnimationFrame (e : Env)       (* the browser runs a requested callback *)
| Settle (k : nat).              (* the [k]-th awaited tick runs to its end *)

(** The call [loop()]: a tick that passes its guards is awaited; one that
    returns at once is followed by [requestAnimationFrame(loop)]. *)
Definition loop (e : Env) (s : controller) : controller :=
  match guarded (envModel e) (envVideo e) (envCanvas e) with
  | Some tick =>
      mkController (loopStarted s) (framesRequested s) (inflight s ++ [tick]) (theWorld s)
             (Began :: history s)
  | None =>
      mkController (loopStarted s) (S (framesRequested s)) (inflight s) (theWorld s)
             (Requested :: Skipped :: history s)
  end.

(** [startLoop()]: nothing when the loop is started already; otherwise the
    flag is set and [loop()] is called.  (The function it returns, which
    would cancel the requested frame, is dropped by the effect that calls
    [startLoop].) *)
Definition startLoop (e : Env) (s : controller) : controller :=
  if loopStarted s then s
  else loop e (mkController true (framesRequested s) (inflight s) (theWorld s) (history s)).

(** One event; [None] when the event cannot happen in this state.  When
    an awaited tick throws, [loop] is left before it requests a frame. *)
Definition step (ev : event) (s : controller) : option controller :=
  match ev with
  | StartLoop e => Some (startLoop e s)
  | AnimationFrame e =>
      match framesRequested s with
      | O => None
      | S n => Some (loop e (mkController (loopStarted s) n (inflight s) (theWorld s)
                                         (history s)))
      end
  | Settle k =>
      match inflight s !! k with
      | None => None
      | Some tick =>
          match tick (theWorld s) with
          | (Ok _, w') =>
              Some (mkController (loopStarted s) (S (framesRequested s)) (delete k (inflight s)) w'
                           (Requested :: Finished :: history s))
          | (Throw _, w') =>
              Some (mkController (loopStarted s) (framesRequested s) (delete k (inflight s)) w'
                           (Failed :: history s))
          end
      end
  end.

Fixpoint steps (evs : list event) (s : controller) : option controller :=
  match evs with
  | [] => Some s
  | ev :: evs' =>
      match step ev s with
      | Some s' => steps evs' s'
      | None => None
      end
  end.

(** Every request for a frame directly follows the end of a tick: one that
    was skipped or one that finished. *)
Fixpoint orderly (h : list mark) : bool :=
  match h with
  | [] => true
  | Requested :: rest =>
      match rest with
      | Skipped :: _ | Finished :: _ => orderly rest
      | _ => false
      end
  | _ :: rest => orderly rest
  end.

Definition mounted (w : world) : controller := mkController false 0 [] w [].

End Rendering.

End RealTimeDetector.

(** ** The stand-alone detection tick *)

Module DetectionLoop.

Section Imports.

(** [./processOutput], [./draw] and [../data/coco_classes]. *)
Variable processOutput : Tensor (list Q) -> Q -> Q -> M (list (list Q) * list Q * list Z).
Variable drawBoundingBoxes :
  Canvas -> list (list Q) -> list Q -> list Z -> list string -> M unit.
Variable COCO_CLASSES : list string.

Definition runDetectionLoop (model : GraphModel) (video : Video) (canvas : Canvas) : M unit :=
  if (readyState video <? 3)%nat then ret tt
  else if negb (has2d canvas) then ret tt
  else
    let inputHeight := nth 1 (inputShape model) 0%nat in
    let inputWidth := nth 2 (inputShape model) 0%nat in
    predictions <- tf.tidy (fun t : Tensor (list Q) => [tid t])
                     (frame <- tf.fromPixels video ;;
                      resized <- tf.resize OpResizeBilinear frame inputHeight inputWidth ;;
                      scaled <- tf.opNum OpDiv resized 255 ;;
                      inputTensor <- tf.opNum OpExpandDims scaled 0 ;;
                      tf.execute OpExecute model inputTensor) ;;
    output <- processOutput predictions (videoWidth video / Qnat inputWidth)
                                       (videoHeight video / Qnat inputHeight) ;;
    let '(boxes, scores, classes) := output in
    drawBoundingBoxes canvas boxes scores classes COCO_CLASSES ;;
    tf.dispose predictions.

End Imports.

End DetectionLoop.

(** ** The MobileNet component *)

Module Classifier.

Section Labels.

(** The table of class names, [./data/imageset]. *)
Variable IMAGENET_CLASSES : list string.

(** [IMAGENET_CLASSES[i] || `不明なID: ${i}`]: a missing or empty name
    gives the fallback. *)
Definition labelOf (i : nat) : string :=
  match IMAGENET_CLASSES !! i with
  | Some (String c s) => String c s
  | _ => "不明なID: " +:+ pretty i
  end.

(** [Array.from(probabilities).map(...).sort(...).slice(0, 3)]. *)
Definition topK (probabilities : list Q) : list Prediction :=
  JS.slice0 3
    (JS.sort (fun a b => probability b - probability a)
       (imap (fun i p => mkPrediction (labelOf i) p) probabilities)).

(** The component after [setPredictions(l)], and the console after a
    line has been written. *)
Definition display (l : list Prediction) (w : world) : world :=
  mkWorld (nextId w) (live w) (oplog w) (overlay w) (console w) l.

Definition written (m : logmsg) (w : world) : world :=
  mkWorld (nextId w) (live w) (oplog w) (overlay w) (console w ++ [m]) (shown w).

Definition setPredictions (l : list Prediction) : M unit :=
  fun w => (Ok tt, display l w).

Definition consoleLog (m : logmsg) : M unit :=
  fun w => (Ok tt, written m w).

(** [processPredictions] up to its [await]. *)
Definition processPredictions_start (model : GraphModel) (normalizedTensor : Tensor sym)
  : M (list Q) :=
  result <- tf.execute OpPredict model normalizedTensor ;;
  tf.read result.

(** [processPredictions] after its [await]. *)
Definition processPredictions_resume (intermediateModel : option GraphModel)
  (normalizedTensor : Tensor sym) (probabilities : list Q) : M unit :=
  setPredictions (topK probabilities) ;;
  match intermediateModel with
  | Some intermediate =>
      intermediateResult <- tf.execute OpPredict intermediate normalizedTensor ;;
      consoleLog (LogText "--- 中間特徴量 ---") ;;
      consoleLog (LogShape (tid intermediateResult)) ;;
      consoleLog (LogPrint (tid intermediateResult)) ;;
      consoleLog (LogText "--------------------") ;;
      tf.dispose intermediateResult
  | None => ret tt
  end.

(** [predict]: the [tf.tidy] callback starts [processPredictions] and
    returns nothing; the rest of [processPredictions] runs after the scope
    has ended. *)
Definition predict (model intermediateModel : option GraphModel) (video : option Video)
  : M unit :=
  match model, video with
  | Some model, Some video =>
      pending <- tf.tidy (fun _ => [])
                   (pixels <- tf.fromPixels video ;;
                    resized <- tf.resize OpResizeNearestNeighbor pixels 224 224 ;;
                    float <- tf.op1 OpToFloat resized ;;
                    tensor <- tf.op1 OpExpandDims float ;;
                    divided <- tf.opNum OpDiv tensor 127.5 ;;
                    normalizedTensor <- tf.opNum OpSub divided 1 ;;
                    started <- attempt (processPredictions_start model normalizedTensor) ;;
                    ret (normalizedTensor, started)) ;;
      match snd pending with
      | Ok probabilities =>
          attempt (processPredictions_resume intermediateModel (fst pending) probabilities) ;;
          ret tt
      | Throw _ => ret tt
      end
  | _, _ => ret tt
  end.

(** The callback of [setInterval(..., 500)]. *)
Definition onInterval (model intermediateModel : option GraphModel) (video : option Video)
  : M unit :=
  match model, video with
  | Some _, Some v =>
      if (readyState v =? 4)%nat
      then attempt (predict model intermediateModel video) ;; ret tt
      else ret tt
  | _, _ => ret tt
  end.

End Labels.

End Classifier.

(** ** The coco-ssd component *)

Module CocoApp.

(** [DetectedObject] of [@tensorflow-models/coco-ssd]. *)
Record DetectedObject := mkDetectedObject {
  bbox : list Q;
  class : string;
  score : Q
}.

(** A loaded coco-ssd model: what [detect] finds in a frame ([None]: the
    promise is rejected).  The tensors it makes are its own business. *)
Record ObjectDetection := mkObjectDetection {
  detect : Frame -> option (list DetectedObject)
}.

(** The body of [detections.forEach] in [drawDetection]: [beginPath],
    [rect], [stroke], then the label. *)
Definition drawPrediction (prediction : DetectedObject) : M unit :=
  match bbox prediction with
  | x :: y :: width :: height :: _ =>
      ctx2d.strokeRect x y width height ;;
      ctx2d.fillText (Some (class prediction)) (score prediction) x
                     (if JS.ltb 10 y then y - 5 else 10)
  | _ => ret tt
  end.

Fixpoint drawDetection (detections : list DetectedObject) : M unit :=
  match detections with
  | [] => ret tt
  | prediction :: rest => drawPrediction prediction ;; drawDetection rest
  end.

(** [await model.detect(videoRef.current)]. *)
Definition called (w : world) : world :=
  mkWorld (nextId w) (live w) (oplog w ++ [OpDetect])
          (overlay w) (console w) (shown w).

Definition awaitDetect (model : ObjectDetection) (video : Video) : M (list DetectedObject) :=
  fun w =>
    match detect model (currentFrame video) with
    | Some predictions => (Ok predictions, called w)
    | None => (Throw "detect failed", called w)
    end.

(** [detectObjects] after its [await]. *)
Definition render (canvas : option Canvas) (predictions : list DetectedObject) : M unit :=
  match canvas with
  | Some c =>
      if has2d c then ctx2d.clearAll ;; drawDetection predictions else ret tt
  | None => ret tt
  end.

(** The guard of [detectObjects]: [None] when it does nothing, otherwise
    what it goes on to do. *)
Definition guarded (model : option ObjectDetection) (video : option Video)
  (canvas : option Canvas) : option (M unit) :=
  match model, video with
  | Some model, Some video =>
      if (readyState video =? 4)%nat
      then Some (predictions <- awaitDetect model video ;; render canvas predictions)
      else None
  | _, _ => None
  end.

Definition detectObjects (model : option ObjectDetection) (video : option Video)
  (canvas : option Canvas) : M unit :=
  match guarded model video canvas with
  | Some tick => tick
  | None => ret tt
  end.

(** *** Ticks driven by [setInterval(..., 100)] *)

Record Env := mkEnv {
  envModel : option ObjectDetection;
  envVideo : option Video;
  envCanvas : option Canvas
}.

Record app := mkApp {
  timerOn : bool;                (* the interval is set and not cleared *)
  inflight : list (M unit);      (* ticks that wait for [model.detect] *)
  theWorld : world
}.

Inductive event :=
| SetInterval                    (* the effect runs *)
| ClearInterval                  (* its cleanup runs *)
| Timer (e : Env)                (* the interval fires *)
| Settle (k : nat).              (* the [k]-th waiting tick runs to its end *)

(** One event; [None] when the event cannot happen in this state.  The
    promise of [detectObjects] is dropped by the timer callback. *)
Definition step (ev : event) (s : app) : option app :=
  match ev with
  | SetInterval => Some (mkApp true (inflight s) (theWorld s))
  | ClearInterval => Some (mkApp false (inflight s) (theWorld s))
  | Timer e =>
      if timerOn s then
        match guarded (envModel e) (envVideo e) (envCanvas e) with
        | Some tick => Some (mkApp true (inflight s ++ [tick]) (theWorld s))
        | None => Some s
        end
      else None
  | Settle k =>
      match inflight s !! k with
      | None => None
      | Some tick =>
          Some (mkApp (timerOn s) (delete k (inflight s)) (snd (tick (theWorld s))))
      end
  end.

Fixpoint steps (evs : list event) (s : app) : option app :=
  match evs with
  | [] => Some s
  | ev :: evs' =>
      match step ev s with
      | Some s' => steps evs' s'
      | None => None
      end
  end.

Definition mounted (w : world) : app := mkApp false [] w.

End CocoApp.

(** ** Loading the coco-ssd model *)

Module ModelLoader.

(** What the component keeps and shows while the model is loaded: the
    states [model] and [loading], and the lines of the console. *)
Inductive line :=
| Log (s : string)              (* [console.log(s)] *)
| Dir                           (* [console.dir({loadedModel})] *)
| Error (s : string).           (* [console.error(s, error)] *)

Record page := mkPage {
  model : option CocoApp.ObjectDetection;
  loading : bool;
  lines : list line
}.

Definition consoleLog (l : line) (p : page) : page :=
  mkPage (model p) (loading p) (lines p ++ [l]).

(** [loadCocoSsdModel]: [ready] tells whether [tf.ready()] is fulfilled and
    [load] what [cocoSsd.load()] gives ([None]: it is rejected).  The result
    is [None] when the promise is rejected. *)
Definition loadCocoSsdModel (ready : bool) (load : option CocoApp.ObjectDetection)
  (p : page) : option CocoApp.ObjectDetection * page :=
  let p1 := consoleLog (Log "モデルを読み込んでいます...") p in
  if ready then
    match load with
    | Some loaded => (Some loaded, consoleLog (Log "モデルの読み込みが完了しました。") p1)
    | None => (None, p1)
    end
  else (None, p1).

Definition useLoadModel := loadCocoSsdModel.

(** The first effect of [App]: [loadModel().then(...).catch(...)]. *)
Definition loadEffect (ready : bool) (load : option CocoApp.ObjectDetection) (p : page)
  : page :=
  match useLoadModel ready load p with
  | (Some loadedModel, p1) => consoleLog Dir (mkPage (Some loadedModel) false (lines p1))
  | (None, p1) =>
      mkPage (model p1) false
             (lines (consoleLog (Error "モデルの読み込みに失敗しました:") p1))
  end.

(** The status line that [App] renders. *)
Definition status (p : page) : string :=
  if loading p then "モデルを読み込み中です..."
  else "モデル読み込み完了。検出を開始します。".

(** [useState(null)], [useState(true)]. *)
Definition mounted : page := mkPage None true [].

End ModelLoader.

(** ** Inference split at an inner layer *)

Module SplitInference.

(** The model cut at [SPLIT_LAYER_NAME]: the shape of its input, what it
    computes up to the cut and what it computes from the cut on ([None]:
    the call throws). *)
Record SplitModel := mkSplitModel {
  splitInputShape : list nat;
  upToSplit : sym -> option sym;
  fromSplit : sym -> sym -> option sym
}.

(** [model.execute(inputTensor, SPLIT_LAYER_NAME)]. *)
Definition executeUpTo (model : SplitModel) (inputTensor : Tensor sym) : M (Tensor sym) :=
  tf.throwIfDisposed inputTensor ;;
  match upToSplit model (tval inputTensor) with
  | Some v => tf.newTensor OpExecute v
  | None => throw "model execution failed"
  end.

(** [model.execute({ images, [SPLIT_LAYER_NAME] }, model.outputs[0].name)]. *)
Definition executeFrom (model : SplitModel) (images middle : Tensor sym) : M (Tensor sym) :=
  tf.throwIfDisposed images ;; tf.throwIfDisposed middle ;;
  match fromSplit model (tval images) (tval middle) with
  | Some v => tf.newTensor OpExecute v
  | None => throw "model execution failed"
  end.

Definition executeInference (model : SplitModel) (inputTensor : Tensor sym) : M (Tensor sym) :=
  middleTensor <- executeUpTo model inputTensor ;;
  absolute <- tf.op1 OpAbs middleTensor ;;
  maxAbs <- tf.op1 OpMax absolute ;;
  scale <- tf.opNum OpDiv maxAbs 127 ;;
  divided <- tf.op2 OpDiv middleTensor scale ;;
  quantizedTensor <- tf.op1 OpRound divided ;;
  quantizedFloatData <- tf.read middleTensor ;;
  restored <- tf.newTensor OpTensor (SOp1 OpTensor quantizedFloatData) ;;
  dequantizedTensor <- tf.op2 OpMul restored scale ;;
  dummyInput <- tf.newTensor OpZeros (SOp0 OpZeros) ;;
  predictions <- executeFrom model dummyInput middleTensor ;;
  tf.disposeAll [tid inputTensor; tid middleTensor; tid maxAbs; tid scale;
                 tid quantizedTensor; tid dequantizedTensor; tid dummyInput] ;;
  ret predictions.

End SplitInference.

(** ** The overlap of two boxes of the output *)

Module Geometry.

(** Intersection over union of two boxes given as [[x, y, width, height]],
    the form [processOutput] returns and [drawBoundingBoxes] paints: area
    of the intersection divided by area of the union. *)
Definition iou (a b : list Q) : Q :=
  let ax := tf.coord a 0 in
  let ay := tf.coord a 1 in
  let aw := tf.coord a 2 in
  let ah := tf.coord a 3 in
  let bx := tf.coord b 0 in
  let by_ := tf.coord b 1 in
  let bw := tf.coord b 2 in
  let bh := tf.coord b 3 in
  let iw := Qmax (Qmin (ax + aw) (bx + bw) - Qmax ax bx) 0 in
  let ih := Qmax (Qmin (ay + ah) (by_ + bh) - Qmax ay by_) 0 in
  let intersection := iw * ih in
  let union := aw * ah + bw * bh - intersection in
  if JS.leb union 0 then 0 else intersection / union.

End Geometry.

(** ** Vocabulary of the properties *)

Module Post.

Import RealTimeDetector.

(** The proposals [processOutput] reads from the output tensor. *)
Definition proposalsOf (predictions : Tensor (list Q)) : list (list Q) :=
  tf.transposeRows numProposals
    (tf.reshape2d numAttributes numProposals (tval predictions)).

(** [predictions] can be read and has the [84 * 8400] values of the shape. *)
Definition wellFormed (predictions : Tensor (list Q)) (w : world) : Prop :=
  tid predictions ∈ live w /\
  length (tval predictions) = (numAttributes * numProposals)%nat.

(** The class scores of a proposal: what follows its four box entries. *)
Definition classScoresOf (proposal : list Q) : list Q := drop 4 proposal.

(** The three arrays have one length and every box has four entries. *)
Definition aligned (acc : arrays) : Prop :=
  length (scores acc) = length (boxes acc) /\
  length (classes acc) = length (boxes acc) /\
  Forall (fun b => length b = 4%nat) (boxes acc).

(** The indices the library selects from the filled arrays. *)
Definition selection (acc : arrays) : list nat :=
  tf.nonMaxSuppressionImpl (boxes acc) (scores acc)
    (Nat.min 20 (length (boxes acc))) 0.45.

(** The runtime after the transposition, and after the suppression. *)
Definition afterTranspose (w : world) : world :=
  tf.release (S (nextId w)) (tf.allocate OpTranspose (tf.allocate OpTensor w)).

Definition afterSuppression (w : world) : world :=
  let n := nextId w in
  tf.release (4 + n) (tf.release (3 + n) (tf.release (2 + n)
    (tf.allocate OpGather (tf.allocate OpTensor1d (tf.allocate OpGather
      (tf.allocate OpGather (tf.allocate OpNonMaxSuppression
        (tf.allocate OpTensor1d (tf.allocate OpTensor2d (afterTranspose w)))))))))).

(** No selected box reaches the threshold with a box selected before it,
    for the overlap as the library computes it. *)
Definition separated (boxes : list (list Q)) (iouThreshold : Q) (selected : list nat) : Prop :=
  forall i j a b, (i < j)%nat -> selected !! i = Some a -> selected !! j = Some b ->
    JS.leb iouThreshold (tf.intersectionOverUnion boxes b a) = false.

(** Every live handle was handed out by the counter. *)
Definition tracked (w : world) : Prop := forall i, i ∈ live w -> (i < nextId w)%nat.

(** A detection model that returns the [84 * 8400] values on any input. *)
Definition wellShaped (model : GraphModel) : Prop :=
  forall x, exists data,
    run model x = Some data /\ length data = (numAttributes * numProposals)%nat.

(** The runtime after the [tf.tidy] scope of the detection tick. *)
Definition afterPreprocess (w : world) : world :=
  tf.endScope (nextId w) [(3 + nextId w)%nat]
    (tf.allocate OpExpandDims (tf.allocate OpDiv
       (tf.allocate OpResizeBilinear (tf.allocate OpFromPixels w)))).

(** Before the loop is started nothing is awaited or requested; at any
    time at most one tick is awaited or one frame requested, never both;
    and the history is orderly. *)
Definition sequential (s : controller) : Prop :=
  (loopStarted s = false -> inflight s = [] /\ framesRequested s = 0%nat) /\
  (length (inflight s) + framesRequested s <= 1)%nat /\
  orderly (history s) = true.

(** The model is not loaded, or the frame cannot be decoded yet. *)
Definition unready {Model : Type} (model : option Model) (video : Video) : Prop :=
  model = None \/ decodable video = false.

(** A split model that does not throw. *)
Definition reliable (model : SplitInference.SplitModel) : Prop :=
  (forall x, is_Some (SplitInference.upToSplit model x)) /\
  (forall a b, is_Some (SplitInference.fromSplit model a b)).

(** The runtime after [executeInference] has run on the tensor [input]. *)
Definition afterInference (input : nat) (w : world) : world :=
  let n := nextId w in
  tf.release (8 + n) (tf.release (7 + n) (tf.release (5 + n) (tf.release (3 + n)
    (tf.release (2 + n) (tf.release n (tf.release input
      (tf.allocate OpExecute (tf.allocate OpZeros (tf.allocate OpMul
        (tf.allocate OpTensor (tf.allocate OpRound (tf.allocate OpDiv
          (tf.allocate OpDiv (tf.allocate OpMax (tf.allocate OpAbs
            (tf.allocate OpExecute w)))))))))))))))).

(** A caller of [executeInference] that keeps nothing: it makes the input
    tensor from a frame, runs the inference and disposes the predictions
    it gets back.  The callers are not among the sources; this one
    releases all it can. *)
Definition inferenceTick (model : SplitInference.SplitModel) (frame : Frame) : M unit :=
  inputTensor <- tf.newTensor OpFromPixels (SFrame frame) ;;
  predictions <- SplitInference.executeInference model inputTensor ;;
  tf.dispose predictions.

(** Ticks that run one after the other; a tick that throws ends the run. *)
Fixpoint inSequence (ticks : list (M unit)) : M unit :=
  match ticks with
  | [] => ret tt
  | tick :: rest => tick ;; inSequence rest
  end.

End Post.

(** ** Inputs used in the examples *)

Module Example.

Import RealTimeDetector.

(** A proposal whose first class has score [s0] and the others 0. *)
Definition proposalRow (cx cy w h s0 : Q) : list Q :=
  [cx; cy; w; h; s0] ++ replicate 79 0.

Definition zeroRow : list Q := replicate 84 0.

(** The proposals followed by empty ones, up to 8400. *)
Definition pad (proposals : list (list Q)) : list (list Q) :=
  proposals ++ replicate (numProposals - length proposals) zeroRow.

(** The values of the [84 x 8400] output tensor that holds the proposals. *)
Definition dataOf (proposals : list (list Q)) : list Q :=
  concat (tf.transposeRows 84 proposals).

(** A runtime in which only the output tensor, handle 0, is alive. *)
Definition w0 : world := mkWorld 1 {[ 0%nat ]} [] [] [] [].

Definition quiet : Tensor (list Q) := mkTensor 0 (dataOf (pad [])).

Definition single : Tensor (list Q) :=
  mkTensor 0 (dataOf (pad [proposalRow 100 100 50 50 0.9])).

(** Two proposals whose boxes are [[90, 90, 100, 100]] and
    [[95, 95, 100, 100]]. *)
Definition overlapping : Tensor (list Q) :=
  mkTensor 0 (dataOf (pad [proposalRow 140 140 100 100 0.9;
                           proposalRow 145 145 100 100 0.8])).

(** A split model that returns its input at the cut and the tensor of the
    cut at the end. *)
Definition echo : SplitInference.SplitModel :=
  SplitInference.mkSplitModel [1; 640; 640; 3]%nat (fun x => Some x) (fun _ m => Some m).

Definition blank : Frame := mkFrame 2 2 [0; 0; 0; 0]%Z.

(** A runtime without tensors. *)
Definition idle : world := mkWorld 0 ∅ [] [] [] [].

(** A video with enough data, and one that only has its metadata. *)
Definition playing : Video := mkVideo 4 640 480 blank.
Definition loading : Video := mkVideo 1 640 480 blank.

Definition canvas : Canvas := mkCanvas true 640 480 (fun _ _ => 40).

(** Detection models: one that throws, one that finds nothing. *)
Definition failing : GraphModel := mkGraphModel [1; 640; 640; 3]%nat (fun _ => None).
Definition silent : GraphModel :=
  mkGraphModel [1; 640; 640; 3]%nat (fun _ => Some (tval quiet)).

(** coco-ssd models: one whose [detect] is rejected, one that finds a
    person. *)
Definition rejecting : CocoApp.ObjectDetection := CocoApp.mkObjectDetection (fun _ => None).
Definition person : CocoApp.DetectedObject :=
  CocoApp.mkDetectedObject [10; 20; 30; 40] "person" 0.9.
Definition finding : CocoApp.ObjectDetection :=
  CocoApp.mkObjectDetection (fun _ => Some [person]).

(** What the components see when a tick starts: a loaded model, the
    playing video and the canvas. *)
Definition yoloEnv (model : GraphModel) : RealTimeDetector.Env :=
  RealTimeDetector.mkEnv (Some model) (Some playing) (Some canvas).

Definition cocoEnv (model : CocoApp.ObjectDetection) : CocoApp.Env :=
  CocoApp.mkEnv (Some model) (Some playing) (Some canvas).

End Example.

(** ** Vocabulary of the further properties *)

Module Terms.

Import RealTimeDetector.



(** A tick that runs to its end on every runtime it may find. *)
Definition completes (tick : M unit) : Prop :=
  forall w, Post.tracked w -> exists w', tick w = (Ok tt, w') /\ Post.tracked w'.

(** The model an event of the loop sees, if any, returns output of the
    expected shape. *)
Definition wellShapedEvent (ev : event) : Prop :=
  match ev with
  | StartLoop e | AnimationFrame e =>
      forall m, envModel e = Some m -> Post.wellShaped m
  | Settle _ => True
  end.

(** The loop is not started, or exactly one tick is awaited or one frame
    requested; awaited ticks run to their end; no tick has failed. *)
Definition running (s : controller) : Prop :=
  Post.tracked (theWorld s) /\
  Forall completes (inflight s) /\
  (if loopStarted s then (length (inflight s) + framesRequested s = 1)%nat
   else inflight s = [] /\ framesRequested s = 0%nat) /\
  Forall (fun m => m <> Failed) (history s).

(** The value of [normalizedTensor] in [predict]: the frame resized to
    [224 x 224], as floats, with a batch axis, divided by 127.5, minus 1. *)
Definition normalized (video : Video) : sym :=
  SOp2 OpSub
    (SOp2 OpDiv
       (SOp1 OpExpandDims
          (SOp1 OpToFloat
             (SResize OpResizeNearestNeighbor (SFrame (currentFrame video)) 224 224)))
       (SNum 127.5))
    (SNum 1).

(** The runtime after [predict] has made [normalizedTensor], and after
    [predict] has returned. *)
Definition afterNormalize (w : world) : world :=
  tf.allocate OpSub (tf.allocate OpDiv (tf.allocate OpExpandDims
    (tf.allocate OpToFloat (tf.allocate OpResizeNearestNeighbor
      (tf.allocate OpFromPixels w))))).

Definition afterPredict (IMAGENET_CLASSES : list string) (model : GraphModel)
  (video : Video) (w : world) : world :=
  match run model (normalized video) with
  | Some probabilities =>
      Classifier.display (Classifier.topK IMAGENET_CLASSES probabilities)
        (tf.endScope (nextId w) [] (tf.allocate OpPredict (afterNormalize w)))
  | None => tf.endScope (nextId w) [] (afterNormalize w)
  end.

(** The runtime when the second [model.execute] of [executeInference] is
    called: nine tensors have been made and none disposed. *)
Definition beforeSecondHalf (w : world) : world :=
  tf.allocate OpZeros (tf.allocate OpMul (tf.allocate OpTensor (tf.allocate OpRound
    (tf.allocate OpDiv (tf.allocate OpDiv (tf.allocate OpMax (tf.allocate OpAbs
      (tf.allocate OpExecute w)))))))).

End Terms.

(** * Properties *)

(** ** Numbers *)

Lemma ltb_lt (x y : Q) : JS.ltb x y = true <-> x < y.
Proof.
  unfold JS.ltb. rewrite negb_true_iff, <- not_true_iff_false, Qle_bool_iff.
  split; [apply Qnot_le_lt | apply Qlt_not_le].
Qed.

Lemma ltb_ge (x y : Q) : JS.ltb x y = false <-> y <= x.
Proof.
  unfold JS.ltb. rewrite negb_false_iff. apply Qle_bool_iff.
Qed.

Lemma leb_le (x y : Q) : JS.leb x y = true <-> x <= y.
Proof. apply Qle_bool_iff. Qed.

Lemma leb_gt (x y : Q) : JS.leb x y = false <-> y < x.
Proof.
  unfold JS.leb. rewrite <- not_true_iff_false, Qle_bool_iff.
  split; [apply Qnot_le_lt | apply Qlt_not_le].
Qed.

(** ** The monad *)

Lemma bind_Ok {A B : Type} (m : M A) (k : A -> M B) (w w' : world) (a : A) :
  m w = (Ok a, w') -> bind m k w = k a w'.
Proof. intros H. unfold bind. now rewrite H. Qed.

Lemma bind_Throw {A B : Type} (m : M A) (k : A -> M B) (w w' : world) (e : string) :
  m w = (Throw e, w') -> bind m k w = (Throw e, w').
Proof. intros H. unfold bind. now rewrite H. Qed.

Lemma throwIfDisposed_live {A : Type} (t : Tensor A) (w : world) :
  tid t ∈ live w -> tf.throwIfDisposed t w = (Ok tt, w).
Proof. intros H. unfold tf.throwIfDisposed. now rewrite decide_True. Qed.

Lemma read_live {A : Type} (t : Tensor A) (w : world) :
  tid t ∈ live w -> tf.read t w = (Ok (tval t), w).
Proof.
  intros H. unfold tf.read. now rewrite (bind_Ok _ _ _ _ _ (throwIfDisposed_live t w H)).
Qed.

(** ** Arrays: sorting and gathering *)

Section SortFacts.

Context {A : Type} (compare : A -> A -> Q).

Lemma insertBy_Permutation (a : A) (l : list A) :
  Permutation (JS.insertBy compare a l) (a :: l).
Proof.
  induction l as [| b l IH]; simpl; [reflexivity |].
  destruct (JS.leb (compare a b) 0); [reflexivity |].
  rewrite IH. apply perm_swap.
Qed.

Lemma sort_Permutation (l : list A) : Permutation (JS.sort compare l) l.
Proof.
  induction l as [| a l IH]; simpl; [reflexivity |].
  rewrite insertBy_Permutation. now constructor.
Qed.

Lemma sort_length (l : list A) : length (JS.sort compare l) = length l.
Proof. apply Permutation_length, sort_Permutation. Qed.

Lemma sort_Forall (P : A -> Prop) (l : list A) :
  Forall P l -> Forall P (JS.sort compare l).
Proof. intros H. now rewrite sort_Permutation. Qed.

(** With a comparator that never says both "a after b" and "b after a",
    the result is ordered: each element stays before all later ones. *)
Variable before : A -> A -> Prop.
Hypothesis before_trans : forall a b c, before a b -> before b c -> before a c.
Hypothesis before_le : forall a b, JS.leb (compare a b) 0 = true -> before a b.
Hypothesis before_gt : forall a b, JS.leb (compare a b) 0 = false -> before b a.



End SortFacts.


Lemma gatherRows_Some {A : Type} (x : list A) (indices : list nat) :
  Forall (fun i => (i < length x)%nat) indices ->
  exists l, tf.gatherRows x indices = Some l.
Proof.
  induction 1 as [| i indices Hi _ [l IH]]; simpl; [now exists [] |].
  destruct (lookup_lt_is_Some_2 x i Hi) as [a Ha].
  rewrite Ha, IH. now exists (a :: l).
Qed.

Lemma gatherRows_lookup {A : Type} (x : list A) (indices : list nat) (l : list A) :
  tf.gatherRows x indices = Some l ->
  length l = length indices /\
  forall k i, indices !! k = Some i -> l !! k = x !! i.
Proof.
  revert l. induction indices as [| i indices IH]; simpl; intros l H.
  - inversion H. split; [reflexivity | intros k j Hk; discriminate].
  - destruct (x !! i) as [a |] eqn:Ha; [| discriminate].
    destruct (tf.gatherRows x indices) as [l' |]; [| discriminate].
    inversion H; subst l. destruct (IH l' eq_refl) as [Hlen Hk].
    split; [simpl; now rewrite Hlen |].
    intros [| k] j Hj; simpl in *.
    + inversion Hj; subst j. now rewrite Ha.
    + now apply Hk.
Qed.

Lemma gatherRows_elem {A : Type} (x : list A) (indices : list nat) (l : list A) :
  tf.gatherRows x indices = Some l -> forall a, a ∈ l -> a ∈ x.
Proof.
  intros H a Ha. destruct (gatherRows_lookup x indices l H) as [Hlen Hk].
  apply list_elem_of_lookup in Ha as [k Hka].
  destruct (lookup_lt_is_Some_2 indices k) as [i Hi].
  { rewrite <- Hlen. eapply lookup_lt_Some, Hka. }
  apply list_elem_of_lookup. exists i. now rewrite <- (Hk k i Hi).
Qed.

(** ** Non-max suppression as the library does it *)

Section Suppression.

Variables (boxes : list (list Q)) (maxOutputSize : nat) (iouThreshold : Q).

Lemma selectLoop_length (candidates : list tf.Candidate) (selected : list nat) :
  (length selected <= maxOutputSize)%nat ->
  (length (tf.selectLoop boxes maxOutputSize iouThreshold candidates selected)
   <= maxOutputSize)%nat.
Proof.
  revert selected. induction candidates as [| c rest IH]; intros selected H; simpl.
  - exact H.
  - destruct (length selected <? maxOutputSize)%nat eqn:E; [| exact H].
    apply Nat.ltb_lt in E.
    destruct (existsb _ (rev selected)); apply IH; [exact H |].
    rewrite length_app; simpl; lia.
Qed.

Lemma selectLoop_Forall (P : nat -> Prop) (candidates : list tf.Candidate)
  (selected : list nat) :
  Forall (fun c => P (tf.boxIndex c)) candidates -> Forall P selected ->
  Forall P (tf.selectLoop boxes maxOutputSize iouThreshold candidates selected).
Proof.
  intros Hc. revert selected.
  induction Hc as [| c rest Hc _ IH]; intros selected H; simpl; [exact H |].
  destruct (length selected <? maxOutputSize)%nat; [| exact H].
  destruct (existsb _ (rev selected)); apply IH; [exact H |].
  apply Forall_app; split; [exact H | now constructor].
Qed.

End Suppression.

Lemma candidates_in_range (scores : list Q) :
  Forall (fun c => (tf.boxIndex c < length scores)%nat)
         (imap (fun i s => tf.mkCandidate s i) scores).
Proof.
  apply Forall_forall. intros c Hc.
  apply elem_of_lookup_imap in Hc as (i & s & -> & Hs). simpl.
  eapply lookup_lt_Some, Hs.
Qed.

Lemma nonMaxSuppressionImpl_length (boxes : list (list Q)) (scores : list Q)
  (maxOutputSize : nat) (iouThreshold : Q) :
  (length (tf.nonMaxSuppressionImpl boxes scores maxOutputSize iouThreshold)
   <= maxOutputSize)%nat.
Proof.
  unfold tf.nonMaxSuppressionImpl. apply selectLoop_length. simpl. lia.
Qed.

Lemma nonMaxSuppressionImpl_in_range (boxes : list (list Q)) (scores : list Q)
  (maxOutputSize : nat) (iouThreshold : Q) :
  Forall (fun i => (i < length scores)%nat)
         (tf.nonMaxSuppressionImpl boxes scores maxOutputSize iouThreshold).
Proof.
  unfold tf.nonMaxSuppressionImpl. apply selectLoop_Forall; [| constructor].
  apply Forall_rev, sort_Forall, candidates_in_range.
Qed.

(** ** Filtering the proposals *)

Import RealTimeDetector Post.

(** The scan returns a score that bounds every class score and the score
    it started from; it is either the starting pair or a class score with
    its index. *)
Lemma scanScores_spec (classScores : list Q) (i : Z) (maxScore : Q) (classId : Z)
  (m : Q) (c : Z) :
  scanScores classScores i maxScore classId = (m, c) ->
  maxScore <= m /\ Forall (fun s => s <= m) classScores /\
  ((m = maxScore /\ c = classId) \/
   exists k, classScores !! k = Some m /\ c = (i + Z.of_nat k)%Z).
Proof.
  revert i maxScore classId.
  induction classScores as [| s rest IH]; intros i maxScore classId H; simpl in H.
  - inversion H; subst. split; [apply Qle_refl |]. split; [constructor | now left].
  - destruct (JS.ltb maxScore s) eqn:E.
    + apply ltb_lt in E. destruct (IH _ _ _ H) as (Hle & Hall & Hwhere).
      split; [lra |]. split; [now constructor |]. right.
      destruct Hwhere as [[-> ->] | (k & Hk & ->)].
      * exists 0%nat. split; [reflexivity | lia].
      * exists (S k). split; [exact Hk | lia].
    + apply ltb_ge in E. destruct (IH _ _ _ H) as (Hle & Hall & Hwhere).
      split; [exact Hle |]. split; [constructor; [lra | exact Hall] |].
      destruct Hwhere as [[-> ->] | (k & Hk & ->)]; [now left |].
      right. exists (S k). split; [exact Hk | lia].
Qed.

(** A proposal is either skipped or appends one entry to each array. *)
Lemma pushProposal_cases (widthRatio heightRatio : Q) (acc : arrays) (proposal : list Q) :
  pushProposal widthRatio heightRatio acc proposal = acc \/
  exists x_center y_center width height classScores maxScore classId,
    proposal = x_center :: y_center :: width :: height :: classScores /\
    scanScores classScores 0%Z (-1) (-1)%Z = (maxScore, classId) /\
    confidenceThreshold < maxScore /\
    pushProposal widthRatio heightRatio acc proposal =
      mkArrays
        (boxes acc ++ [[ (x_center - width / 2) * widthRatio;
                         (y_center - height / 2) * heightRatio;
                         width * widthRatio;
                         height * heightRatio ]])
        (scores acc ++ [maxScore])
        (classes acc ++ [classId]).
Proof.
  destruct proposal as [| x [| y [| w [| h cs]]]]; try (now left).
  simpl. destruct (scanScores cs 0%Z (-1) (-1)%Z) as [m c] eqn:Hscan.
  destruct (JS.ltb confidenceThreshold m) eqn:E; [| now left].
  right. exists x, y, w, h, cs, m, c. apply ltb_lt in E. now repeat split.
Qed.

(** A property of the three arrays that the empty arrays have and every
    proposal preserves holds when all proposals have been seen. *)
Lemma collect_invariant (P : arrays -> Prop) (widthRatio heightRatio : Q)
  (proposals : list (list Q)) :
  P (mkArrays [] [] []) ->
  (forall acc proposal, proposal ∈ proposals -> P acc ->
     P (pushProposal widthRatio heightRatio acc proposal)) ->
  P (collect widthRatio heightRatio proposals).
Proof.
  unfold collect. generalize (mkArrays [] [] []).
  induction proposals as [| p ps IH]; intros acc H0 Hstep; simpl; [exact H0 |].
  apply IH.
  - apply Hstep; [left | exact H0].
  - intros acc' p' Hin. apply Hstep. now right.
Qed.

Lemma collect_aligned (widthRatio heightRatio : Q) (proposals : list (list Q)) :
  aligned (collect widthRatio heightRatio proposals).
Proof.
  apply collect_invariant.
  - repeat split. constructor.
  - intros acc p _ (Hs & Hc & Hb).
    destruct (pushProposal_cases widthRatio heightRatio acc p)
      as [-> | (x & y & w & h & cs & m & c & _ & _ & _ & ->)]; [now repeat split |].
    unfold aligned; simpl. rewrite !length_app; simpl.
    repeat split; [lia | lia |]. apply Forall_app; split; [exact Hb | now repeat constructor].
Qed.

(** What is pushed for an accepted proposal: its highest class score, which
    is above the threshold. *)
Lemma accepted_score (classScores : list Q) (maxScore : Q) (classId : Z) :
  scanScores classScores 0%Z (-1) (-1)%Z = (maxScore, classId) ->
  confidenceThreshold < maxScore ->
  maxScore ∈ classScores /\ Forall (fun c => c <= maxScore) classScores /\
  (0 <= classId)%Z.
Proof.
  intros Hscan Hconf.
  destruct (scanScores_spec _ _ _ _ _ _ Hscan) as (_ & Hall & [[-> _] | (k & Hk & ->)]).
  - unfold confidenceThreshold in Hconf. lra.
  - split; [eapply list_elem_of_lookup_2, Hk |]. split; [exact Hall | lia].
Qed.

Lemma collect_scores (widthRatio heightRatio : Q) (proposals : list (list Q)) :
  Forall (fun s => confidenceThreshold < s /\
                   exists p, p ∈ proposals /\ s ∈ classScoresOf p /\
                             Forall (fun c => c <= s) (classScoresOf p))
         (scores (collect widthRatio heightRatio proposals)).
Proof.
  apply collect_invariant; [constructor |].
  intros acc p Hin Hacc.
  destruct (pushProposal_cases widthRatio heightRatio acc p)
    as [-> | (x & y & w & h & cs & m & c & -> & Hscan & Hconf & ->)]; [exact Hacc |].
  simpl. apply Forall_app. split; [exact Hacc |].
  constructor; [| constructor]. split; [exact Hconf |].
  exists (x :: y :: w :: h :: cs).
  destruct (accepted_score _ _ _ Hscan Hconf) as (Hm & Hall & _). now repeat split.
Qed.


(** Nothing is pushed when no class score of any proposal is above the
    threshold. *)
Lemma pushProposal_rejected (widthRatio heightRatio : Q) (acc : arrays) (p : list Q) :
  Forall (fun c => c <= confidenceThreshold) (classScoresOf p) ->
  pushProposal widthRatio heightRatio acc p = acc.
Proof.
  intros Hlow.
  destruct (pushProposal_cases widthRatio heightRatio acc p)
    as [H | (x & y & w & h & cs & m & c & -> & Hscan & Hconf & _)]; [exact H |].
  destruct (accepted_score _ _ _ Hscan Hconf) as (Hm & _ & _).
  rewrite Forall_forall in Hlow. specialize (Hlow m Hm). lra.
Qed.

Lemma collect_quiet (widthRatio heightRatio : Q) (proposals : list (list Q)) :
  Forall (fun p => Forall (fun c => c <= confidenceThreshold) (classScoresOf p)) proposals ->
  collect widthRatio heightRatio proposals = mkArrays [] [] [].
Proof.
  intros Hlow. apply (collect_invariant (fun acc => acc = mkArrays [] [] [])); [reflexivity |].
  intros acc p Hin ->. apply pushProposal_rejected.
  rewrite Forall_forall in Hlow. now apply Hlow.
Qed.

(** ** One run of [processOutput] *)

Lemma rectangular_boxes (rows : list (list Q)) :
  Forall (fun b => length b = 4%nat) rows -> tf.rectangular rows = true.
Proof.
  destruct 1 as [| r rows Hr Hrows]; simpl; [reflexivity |].
  apply forallb_forall. intros r' Hin. apply Nat.eqb_eq.
  rewrite Forall_forall in Hrows. rewrite Hr. apply Hrows. now apply list_elem_of_In.
Qed.

Lemma four_columns (rows : list (list Q)) :
  Forall (fun b => length b = 4%nat) rows ->
  forallb (fun b => (length b =? 4)%nat) rows = true.
Proof.
  intros H. apply forallb_forall. intros r Hin. apply Nat.eqb_eq.
  rewrite Forall_forall in H. apply H. now apply list_elem_of_In.
Qed.

Lemma newTensor_run {A : Type} (op : tfop) (v : A) (w : world) :
  tf.newTensor op v w = (Ok (mkTensor (nextId w) v), tf.allocate op w).
Proof. reflexivity. Qed.

Lemma dispose_run {A : Type} (t : Tensor A) (w : world) :
  tf.dispose t w = (Ok tt, tf.release (tid t) w).
Proof. reflexivity. Qed.

Ltac live_solver :=
  cbn [tf.allocate tf.release live nextId tid]; set_unfold; intuition lia.

Lemma gather_run {A : Type} (x : Tensor (list A)) (indices : Tensor (list nat))
  (l : list A) (w : world) :
  tid x ∈ live w -> tid indices ∈ live w ->
  tf.gatherRows (tval x) (tval indices) = Some l ->
  tf.gather x indices w = (Ok (mkTensor (nextId w) l), tf.allocate OpGather w).
Proof.
  intros Hx Hi Hl. unfold tf.gather.
  erewrite bind_Ok by (now apply throwIfDisposed_live).
  erewrite bind_Ok by (now apply throwIfDisposed_live).
  now rewrite Hl.
Qed.

(** On a well-formed output tensor [processOutput] returns: the three
    arrays are the entries of the filled arrays at the selected indices. *)
Lemma processOutput_run (predictions : Tensor (list Q)) (widthRatio heightRatio : Q)
  (w : world) :
  wellFormed predictions w ->
  exists finalBoxes finalScores finalClasses w',
    let acc := collect widthRatio heightRatio (proposalsOf predictions) in
    processOutput predictions widthRatio heightRatio w
      = (Ok (finalBoxes, finalScores, finalClasses), w') /\
    tf.gatherRows (boxes acc) (selection acc) = Some finalBoxes /\
    tf.gatherRows (scores acc) (selection acc) = Some finalScores /\
    tf.gatherRows (classes acc) (selection acc) = Some finalClasses /\
    ((boxes acc = [] /\ w' = afterTranspose w) \/
     (boxes acc <> [] /\ w' = afterSuppression w)).
Proof.
  intros [Hlive Hlen]. revert Hlen. unfold processOutput, proposalsOf.
  generalize numAttributes, numProposals. intros na np Hlen.
  set (acc := collect widthRatio heightRatio _).
  erewrite bind_Ok by (apply read_live; live_solver).
  unfold tf.tensor. rewrite Hlen, Nat.eqb_refl.
  erewrite bind_Ok by apply newTensor_run.
  unfold tf.transpose.
  erewrite bind_Ok; cycle 1.
  { erewrite bind_Ok by (apply throwIfDisposed_live; live_solver). apply newTensor_run. }
  erewrite bind_Ok by (apply read_live; live_solver).
  erewrite bind_Ok by apply dispose_run.
  cbn [tval tid]. fold acc.
  destruct (collect_aligned widthRatio heightRatio
              (tf.transposeRows np (tf.reshape2d na np (tval predictions))))
    as (Hs & Hc & Hb).
  fold acc in Hs, Hc, Hb.
  destruct (boxes acc) as [| b0 bs] eqn:Eb.
  - destruct (scores acc) as [| ? ?] eqn:Es; [| discriminate].
    destruct (classes acc) as [| ? ?] eqn:Ec; [| discriminate].
    exists [], [], [], (afterTranspose w). cbn [length Nat.eqb].
    unfold selection. rewrite Eb, Es. repeat split. now left.
  - cbn [length Nat.eqb]. rewrite <- Eb in *.
    destruct (gatherRows_Some (boxes acc) (selection acc)) as [fb Hfb].
    { rewrite <- Hs. apply nonMaxSuppressionImpl_in_range. }
    destruct (gatherRows_Some (scores acc) (selection acc)) as [fs Hfs].
    { apply nonMaxSuppressionImpl_in_range. }
    destruct (gatherRows_Some (classes acc) (selection acc)) as [fc Hfc].
    { rewrite Hc, <- Hs. apply nonMaxSuppressionImpl_in_range. }
    exists fb, fs, fc, (afterSuppression w).
    split; [| repeat split; try assumption; right; split;
              [rewrite Eb; discriminate | reflexivity]].
    unfold tf.tensor2d. rewrite (rectangular_boxes _ Hb).
    erewrite bind_Ok by apply newTensor_run.
    unfold tf.tensor1d.
    erewrite bind_Ok by apply newTensor_run.
    erewrite bind_Ok; cycle 1.
    { unfold tf.nonMaxSuppressionAsync.
      erewrite bind_Ok by (apply throwIfDisposed_live; live_solver).
      erewrite bind_Ok by (apply throwIfDisposed_live; live_solver).
      cbn [tval]. rewrite (four_columns _ Hb), Hs, Nat.eqb_refl.
      apply newTensor_run. }
    erewrite bind_Ok by (apply gather_run; [live_solver | live_solver | exact Hfb]).
    erewrite bind_Ok by (apply read_live; live_solver).
    erewrite bind_Ok by (apply gather_run; [live_solver | live_solver | exact Hfs]).
    erewrite bind_Ok by (apply read_live; live_solver).
    erewrite bind_Ok by apply newTensor_run.
    erewrite bind_Ok by (apply gather_run; [live_solver | live_solver | exact Hfc]).
    erewrite bind_Ok by (apply read_live; live_solver).
    reflexivity.
Qed.

(** ** The example inputs are well formed *)

Lemma transposeRows_length (cols : nat) (rows : list (list Q)) :
  length (tf.transposeRows cols rows) = cols.
Proof.
  revert rows. induction cols as [| c IH]; intros rows; simpl; [reflexivity |].
  now rewrite IH.
Qed.

Lemma transposeRows_widths (cols : nat) (rows : list (list Q)) :
  Forall (fun r => length r = length rows) (tf.transposeRows cols rows).
Proof.
  revert rows. induction cols as [| c IH]; intros rows; simpl; constructor.
  - apply length_map.
  - specialize (IH (map (@tl Q) rows)). now rewrite length_map in IH.
Qed.

Lemma concat_uniform_length {A : Type} (n : nat) (l : list (list A)) :
  Forall (fun r => length r = n) l -> length (concat l) = (length l * n)%nat.
Proof.
  induction 1 as [| r l Hr _ IH]; simpl; [reflexivity |].
  rewrite length_app, IH, Hr. reflexivity.
Qed.

Lemma example_wellFormed (proposals : list (list Q)) :
  (length proposals <= numProposals)%nat ->
  wellFormed (mkTensor 0 (Example.dataOf (Example.pad proposals))) Example.w0.
Proof.
  intros Hn. split.
  - unfold Example.w0. cbn [live tid]. set_solver.
  - cbn [tval]. unfold Example.dataOf.
    rewrite (concat_uniform_length _ _ (transposeRows_widths _ _)).
    rewrite transposeRows_length. unfold Example.pad.
    rewrite length_app, length_replicate. unfold numAttributes.
    f_equal. lia.
Qed.

Lemma few_proposals (n : nat) : (n <= 20)%nat -> (n <= numProposals)%nat.
Proof. unfold numProposals. lia. Qed.

(** ** The detections that [processOutput] returns *)

(** C3.  On every output tensor the post-processor can read, it returns,
    and each of the three arrays has at most 20 entries. *)
Theorem processOutput_at_most_20 (predictions : Tensor (list Q))
  (widthRatio heightRatio : Q) (w : world) :
  wellFormed predictions w ->
  exists finalBoxes finalScores finalClasses w',
    processOutput predictions widthRatio heightRatio w
      = (Ok (finalBoxes, finalScores, finalClasses), w') /\
    (length finalBoxes <= 20)%nat /\
    (length finalScores <= 20)%nat /\
    (length finalClasses <= 20)%nat.
Proof.
  intros Hwf.
  destruct (processOutput_run predictions widthRatio heightRatio w Hwf)
    as (fb & fs & fc & w' & Hrun & Hfb & Hfs & Hfc & _).
  exists fb, fs, fc, w'. split; [exact Hrun |].
  destruct (gatherRows_lookup _ _ _ Hfb) as [-> _].
  destruct (gatherRows_lookup _ _ _ Hfs) as [-> _].
  destruct (gatherRows_lookup _ _ _ Hfc) as [-> _].
  assert (length (selection (collect widthRatio heightRatio (proposalsOf predictions)))
          <= 20)%nat as Hcap.
  { unfold selection. etransitivity; [apply nonMaxSuppressionImpl_length |].
    apply Nat.le_min_l. }
  now repeat split.
Qed.

Lemma processOutput_at_most_20_witness :
  exists finalBoxes finalScores finalClasses w',
    processOutput Example.overlapping 1 1 Example.w0
      = (Ok (finalBoxes, finalScores, finalClasses), w') /\
    (length finalBoxes <= 20)%nat /\
    (length finalScores <= 20)%nat /\
    (length finalClasses <= 20)%nat.
Proof.
  apply (processOutput_at_most_20 Example.overlapping 1 1 Example.w0).
  apply example_wellFormed, few_proposals. simpl. lia.
Defined.

(** C2.  Every returned score is at least 0.5 and is the highest class
    score of a proposal of the input; a proposal none of whose class scores
    is above 0.5, in particular one whose highest score is below 0.5, adds
    nothing to the arrays. *)
Theorem processOutput_confidence (predictions : Tensor (list Q))
  (widthRatio heightRatio : Q) (w : world) :
  wellFormed predictions w ->
  exists finalBoxes finalScores finalClasses w',
    processOutput predictions widthRatio heightRatio w
      = (Ok (finalBoxes, finalScores, finalClasses), w') /\
    Forall (fun s => 0.5 <= s /\
                     exists p, p ∈ proposalsOf predictions /\
                               s ∈ classScoresOf p /\
                               Forall (fun c => c <= s) (classScoresOf p))
           finalScores /\
    (forall acc p, Forall (fun c => c <= 0.5) (classScoresOf p) ->
                   pushProposal widthRatio heightRatio acc p = acc).
Proof.
  intros Hwf.
  destruct (processOutput_run predictions widthRatio heightRatio w Hwf)
    as (fb & fs & fc & w' & Hrun & _ & Hfs & _ & _).
  exists fb, fs, fc, w'. split; [exact Hrun |]. split.
  - apply Forall_forall. intros s Hs.
    apply (gatherRows_elem _ _ _ Hfs) in Hs.
    pose proof (collect_scores widthRatio heightRatio (proposalsOf predictions)) as Hall.
    rewrite Forall_forall in Hall. destruct (Hall s Hs) as [Hconf Hp].
    split; [| exact Hp]. unfold confidenceThreshold in Hconf. lra.
  - intros acc p Hlow. now apply pushProposal_rejected.
Qed.

Lemma processOutput_confidence_witness :
  exists finalBoxes finalScores finalClasses w',
    processOutput Example.single 1 1 Example.w0
      = (Ok (finalBoxes, finalScores, finalClasses), w') /\
    Forall (fun s => 0.5 <= s /\
                     exists p, p ∈ proposalsOf Example.single /\
                               s ∈ classScoresOf p /\
                               Forall (fun c => c <= s) (classScoresOf p))
           finalScores /\
    (forall acc p, Forall (fun c => c <= 0.5) (classScoresOf p) ->
                   pushProposal 1 1 acc p = acc).
Proof.
  apply (processOutput_confidence Example.single 1 1 Example.w0).
  apply example_wellFormed, few_proposals. simpl. lia.
Defined.





(** C10.  The three returned arrays have one length.  When no class score
    of any proposal is above 0.5, they are empty and the only library
    calls made are the construction of the matrix and its transposition:
    [nonMaxSuppressionAsync] is not called. *)
Theorem processOutput_arrays (predictions : Tensor (list Q))
  (widthRatio heightRatio : Q) (w : world) :
  wellFormed predictions w ->
  exists finalBoxes finalScores finalClasses w',
    processOutput predictions widthRatio heightRatio w
      = (Ok (finalBoxes, finalScores, finalClasses), w') /\
    length finalScores = length finalBoxes /\
    length finalClasses = length finalBoxes /\
    (Forall (fun p => Forall (fun c => c <= 0.5) (classScoresOf p))
            (proposalsOf predictions) ->
     finalBoxes = [] /\ finalScores = [] /\ finalClasses = [] /\
     oplog w' = oplog w ++ [OpTensor; OpTranspose]).
Proof.
  intros Hwf.
  destruct (processOutput_run predictions widthRatio heightRatio w Hwf)
    as (fb & fs & fc & w' & Hrun & Hfb & Hfs & Hfc & Hw).
  exists fb, fs, fc, w'. split; [exact Hrun |].
  destruct (gatherRows_lookup _ _ _ Hfb) as [Hlb _].
  destruct (gatherRows_lookup _ _ _ Hfs) as [Hls _].
  destruct (gatherRows_lookup _ _ _ Hfc) as [Hlc _].
  split; [congruence |]. split; [congruence |].
  intros Hquiet.
  rewrite (collect_quiet _ _ _ Hquiet) in *. simpl in *.
  destruct Hw as [[_ ->] | [Hne _]]; [| now destruct Hne].
  inversion Hfb; inversion Hfs; inversion Hfc.
  repeat split. unfold afterTranspose. cbn [oplog tf.release tf.allocate].
  now rewrite <- app_assoc.
Qed.

Lemma quiet_has_no_confident_proposal :
  Forall (fun p => Forall (fun c => c <= 0.5) (classScoresOf p))
         (proposalsOf Example.quiet).
Proof.
  assert (forallb (fun p => forallb (fun c => JS.leb c 0.5) (classScoresOf p))
                  (proposalsOf Example.quiet) = true) as H
    by (vm_compute; reflexivity).
  rewrite forallb_forall in H. apply Forall_forall. intros p Hp.
  apply list_elem_of_In, H in Hp. rewrite forallb_forall in Hp.
  apply Forall_forall. intros c Hc. apply leb_le, Hp. now apply list_elem_of_In.
Qed.

Lemma processOutput_arrays_witness :
  exists w',
    processOutput Example.quiet 1 1 Example.w0 = (Ok ([], [], []), w') /\
    oplog w' = oplog Example.w0 ++ [OpTensor; OpTranspose].
Proof.
  destruct (processOutput_arrays Example.quiet 1 1 Example.w0)
    as (fb & fs & fc & w' & Hrun & _ & _ & H).
  - apply example_wellFormed, few_proposals. simpl. lia.
  - destruct (H quiet_has_no_confident_proposal) as (-> & -> & -> & Hlog).
    exists w'. split; [exact Hrun | exact Hlog].
Defined.

(** ** Overlap of the returned boxes *)

Section Separation.

Variables (boxList : list (list Q)) (maxOutputSize : nat) (iouThreshold : Q).

Lemma separated_snoc (selected : list nat) (c : nat) :
  separated boxList iouThreshold selected ->
  (forall a, a ∈ selected ->
     JS.leb iouThreshold (tf.intersectionOverUnion boxList c a) = false) ->
  separated boxList iouThreshold (selected ++ [c]).
Proof.
  intros Hsep Hnew i j a b Hij Hi Hj.
  destruct (Nat.lt_ge_cases j (length selected)) as [Hj' | Hj'].
  - rewrite lookup_app_l in Hi by lia. rewrite lookup_app_l in Hj by lia.
    now apply (Hsep i j).
  - rewrite lookup_app_r in Hj by lia.
    destruct (j - length selected)%nat as [| n] eqn:E; [| destruct n; discriminate].
    inversion Hj; subst b.
    rewrite lookup_app_l in Hi by lia.
    apply Hnew. eapply list_elem_of_lookup_2, Hi.
Qed.

Lemma selectLoop_separated (candidates : list tf.Candidate) (selected : list nat) :
  separated boxList iouThreshold selected ->
  separated boxList iouThreshold
    (tf.selectLoop boxList maxOutputSize iouThreshold candidates selected).
Proof.
  revert selected. induction candidates as [| c rest IH]; intros selected H; simpl.
  - exact H.
  - destruct (length selected <? maxOutputSize)%nat; [| exact H].
    destruct (existsb _ (rev selected)) eqn:E; apply IH; [exact H |].
    apply separated_snoc; [exact H |].
    intros a Ha. apply not_true_iff_false. intros Hover.
    apply not_true_iff_false in E. apply E, existsb_exists.
    exists a. split; [| exact Hover].
    apply in_rev. rewrite rev_involutive. now apply list_elem_of_In.
Qed.

End Separation.

(** What the suppression does achieve: among the selected boxes, none
    reaches 0.45 with one selected before it, when the overlap is computed
    the library's way, on rows read as [[y1, x1, y2, x2]]. *)
Lemma selection_separated (acc : arrays) :
  separated (boxes acc) 0.45 (selection acc).
Proof.
  unfold selection, tf.nonMaxSuppressionImpl. apply selectLoop_separated.
  intros i j a b _ Hi. discriminate.
Qed.

(** C1 fails on the code.  The two proposals of [Example.overlapping] give
    the boxes [[90, 90, 100, 100]] and [[95, 95, 100, 100]], squares of
    side 100 that are 5 apart.  Both are returned: read as corners they
    overlap by 0.25, while as [[x, y, width, height]] their intersection
    over union is 9025/10975, above 0.45. *)
Lemma overlapping_boxes_both_kept :
  exists a b,
    fst (processOutput Example.overlapping 1 1 Example.w0)
      = Ok ([a; b], [0.9; 0.8], [0%Z; 0%Z]) /\
    Forall2 Qeq a [90; 90; 100; 100] /\
    Forall2 Qeq b [95; 95; 100; 100] /\
    tf.intersectionOverUnion [a; b] 1 0 == 0.25 /\
    Geometry.iou a b == 9025 # 10975 /\
    0.45 < Geometry.iou a b.
Proof.
  exists [180 # 2; 180 # 2; 100; 100], [190 # 2; 190 # 2; 100; 100].
  split; [vm_compute; reflexivity |].
  split; [repeat constructor; reflexivity |].
  split; [repeat constructor; reflexivity |].
  split; [reflexivity |]. split; reflexivity.
Qed.

(** ** The top three classes *)


Example topK_example :
  Classifier.topK ["cat"; "dog"; ""; "bird"] [0.1; 0.7; 0.15; 0.05]
  = [ mkPrediction "dog" 0.7; mkPrediction "不明なID: 2" 0.15; mkPrediction "cat" 0.1 ].
Proof. vm_compute. reflexivity. Qed.

(** ** Counting the tensors *)

Lemma tracked_allocate (op : tfop) (w : world) : tracked w -> tracked (tf.allocate op w).
Proof.
  intros H i Hi. cbn [tf.allocate live nextId] in *.
  apply elem_of_union in Hi as [Hi | Hi].
  - apply elem_of_singleton in Hi. lia.
  - specialize (H i Hi). lia.
Qed.

Lemma tracked_release (i : nat) (w : world) : tracked w -> tracked (tf.release i w).
Proof.
  intros H j Hj. cbn [tf.release live nextId] in *.
  apply elem_of_difference in Hj as [Hj _]. now apply H.
Qed.

Lemma numTensors_allocate (op : tfop) (w : world) :
  tracked w -> numTensors (tf.allocate op w) = S (numTensors w).
Proof.
  intros H. unfold numTensors. cbn [tf.allocate live].
  rewrite size_union, size_singleton; [reflexivity |].
  intros i Hi Hl. apply elem_of_singleton in Hi. subst i.
  specialize (H _ Hl). lia.
Qed.

Lemma numTensors_release (i : nat) (w : world) :
  i ∈ live w -> S (numTensors (tf.release i w)) = numTensors w.
Proof.
  intros H. unfold numTensors. cbn [tf.release live].
  rewrite size_difference by set_solver. rewrite size_singleton.
  assert (size (live w) <> 0)%nat; [| lia].
  intros Hz. apply size_empty_inv in Hz. set_solver.
Qed.

Lemma numTensors_release_gone (i : nat) (w : world) :
  i ∉ live w -> numTensors (tf.release i w) = numTensors w.
Proof.
  intros H. unfold numTensors. cbn [tf.release live].
  rewrite difference_disjoint_L; [reflexivity |].
  intros j Hj Hi. apply elem_of_singleton in Hi. now subst j.
Qed.

Create HintDb tensors.
#[local] Hint Resolve tracked_allocate tracked_release : tensors.

Lemma numTensors_release_live (i : nat) (w : world) :
  i ∈ live w -> numTensors (tf.release i w) = Nat.pred (numTensors w).
Proof. intros H. rewrite <- (numTensors_release i w H). reflexivity. Qed.

Ltac count_tensors :=
  repeat first
    [ rewrite numTensors_release_live by live_solver
    | rewrite numTensors_allocate by auto 20 with tensors ].

(** ** [executeInference] *)

Lemma executeInference_run (model : SplitInference.SplitModel) (inputTensor : Tensor sym)
  (w : world) :
  reliable model -> tid inputTensor ∈ live w ->
  exists v,
    SplitInference.executeInference model inputTensor w
    = (Ok (mkTensor (9 + nextId w) v), afterInference (tid inputTensor) w).
Proof.
  intros [Hup Hfrom] Hlive.
  destruct (Hup (tval inputTensor)) as [middle Hmiddle].
  destruct (Hfrom (SOp0 OpZeros) middle) as [v Hv].
  exists v. unfold SplitInference.executeInference.
  erewrite bind_Ok; cycle 1.
  { unfold SplitInference.executeUpTo.
    erewrite bind_Ok by (now apply throwIfDisposed_live).
    rewrite Hmiddle. apply newTensor_run. }
  unfold tf.op1, tf.op2, tf.opNum.
  do 5 (erewrite bind_Ok; cycle 1;
        [ repeat (erewrite bind_Ok by (apply throwIfDisposed_live; live_solver));
          apply newTensor_run | ]).
  erewrite bind_Ok by (apply read_live; live_solver).
  erewrite bind_Ok by apply newTensor_run.
  erewrite bind_Ok; cycle 1.
  { repeat (erewrite bind_Ok by (apply throwIfDisposed_live; live_solver)).
    apply newTensor_run. }
  erewrite bind_Ok by apply newTensor_run.
  erewrite bind_Ok; cycle 1.
  { unfold SplitInference.executeFrom.
    repeat (erewrite bind_Ok by (apply throwIfDisposed_live; live_solver)).
    cbn [tval]. rewrite Hv. apply newTensor_run. }
  reflexivity.
Qed.

Lemma afterInference_count (input : nat) (w : world) :
  tracked w -> input ∈ live w ->
  numTensors (afterInference input w) = (numTensors w + 3)%nat /\
  tracked (afterInference input w) /\
  (9 + nextId w)%nat ∈ live (afterInference input w).
Proof.
  intros Htracked Hlive. pose proof (Htracked _ Hlive) as Hlt.
  split; [| split].
  - unfold afterInference. cbn zeta. count_tensors. lia.
  - unfold afterInference. auto 20 with tensors.
  - unfold afterInference. live_solver.
Qed.

Lemma inferenceTick_run (model : SplitInference.SplitModel) (frame : Frame) (w : world) :
  reliable model -> tracked w ->
  exists w', inferenceTick model frame w = (Ok tt, w') /\
             tracked w' /\ numTensors w' = (numTensors w + 3)%nat.
Proof.
  intros Hmodel Htracked. unfold inferenceTick.
  erewrite bind_Ok by apply newTensor_run.
  set (w1 := tf.allocate OpFromPixels w).
  assert (tracked w1) as Htracked1 by (subst w1; auto with tensors).
  assert (nextId w ∈ live w1) as Hinput by (subst w1; live_solver).
  destruct (executeInference_run model (mkTensor (nextId w) (SFrame frame)) w1 Hmodel Hinput)
    as [v Hrun].
  erewrite bind_Ok by exact Hrun.
  destruct (afterInference_count (nextId w) w1 Htracked1 Hinput) as (Hcount & Htracked' & Hpred).
  cbn [tid] in *. eexists. split; [apply dispose_run |]. cbn [tid].
  split; [auto with tensors |].
  rewrite numTensors_release_live by exact Hpred. rewrite Hcount.
  subst w1. rewrite numTensors_allocate by exact Htracked. lia.
Qed.

(** C8 fails on [executeInference].  With a model that does not throw, and
    a caller that disposes the predictions it receives, every tick leaves
    three more tensors alive (the results of [middleTensor.abs()], of
    [middleTensor.div(scale)] and of [tf.tensor(dequantizedData, ...)], which
    are not in the list passed to [tf.dispose]): after any number of ticks
    the count is the one before the loop plus three per tick. *)
Theorem executeInference_leaks (model : SplitInference.SplitModel) (frames : list Frame)
  (w : world) :
  reliable model -> tracked w ->
  exists w', inSequence (map (inferenceTick model) frames) w = (Ok tt, w') /\
             numTensors w' = (numTensors w + 3 * length frames)%nat.
Proof.
  intros Hmodel. revert w.
  induction frames as [| frame frames IH]; intros w Htracked; simpl.
  - exists w. split; [reflexivity | lia].
  - destruct (inferenceTick_run model frame w Hmodel Htracked) as (w1 & Hrun & Htracked1 & Hc1).
    destruct (IH w1 Htracked1) as (w' & Hrest & Hc).
    exists w'. split; [now rewrite (bind_Ok _ _ _ _ _ Hrun) |]. lia.
Qed.

Lemma echo_reliable : reliable Example.echo.
Proof. split; intros; eexists; reflexivity. Qed.

Lemma idle_tracked : tracked Example.idle.
Proof. intros i Hi. unfold Example.idle in Hi. cbn [live] in Hi. set_solver. Qed.

Lemma executeInference_leaks_witness :
  exists w',
    inSequence (map (inferenceTick Example.echo)
                    [Example.blank; Example.blank; Example.blank; Example.blank])
               Example.idle = (Ok tt, w') /\
    numTensors w' = (numTensors Example.idle + 3 * 4)%nat.
Proof.
  apply (executeInference_leaks Example.echo
           [Example.blank; Example.blank; Example.blank; Example.blank] Example.idle).
  - exact echo_reliable.
  - exact idle_tracked.
Defined.

Example four_ticks_twelve_tensors :
  numTensors
    (snd (inSequence (map (inferenceTick Example.echo)
                          [Example.blank; Example.blank; Example.blank; Example.blank])
                     Example.idle)) = 12%nat.
Proof. vm_compute. reflexivity. Qed.

(** ** The detection tick *)

Lemma tidy_Ok {A : Type} (keep : A -> list nat) (fn : M A) (w w' : world) (a : A) :
  fn w = (Ok a, w') -> tf.tidy keep fn w = (Ok a, tf.endScope (nextId w) (keep a) w').
Proof. intros H. unfold tf.tidy. now rewrite H. Qed.

Lemma afterPreprocess_live (w : world) :
  tracked w -> live (afterPreprocess w) = {[ (3 + nextId w)%nat ]} ∪ live w.
Proof.
  intros Htracked. unfold afterPreprocess.
  cbn [tf.endScope tf.allocate live nextId].
  apply set_eq. intros i. rewrite elem_of_filter.
  set_unfold. specialize (Htracked i). intuition lia.
Qed.

Lemma afterPreprocess_facts (w : world) :
  tracked w ->
  nextId (afterPreprocess w) = (4 + nextId w)%nat /\
  tracked (afterPreprocess w) /\
  numTensors (afterPreprocess w) = S (numTensors w) /\
  (3 + nextId w)%nat ∈ live (afterPreprocess w).
Proof.
  intros Htracked. pose proof (afterPreprocess_live w Htracked) as Hlive.
  split; [reflexivity |]. split; [| split].
  - intros i Hi. rewrite Hlive in Hi. change (i < 4 + nextId w)%nat.
    apply elem_of_union in Hi as [Hi | Hi].
    + apply elem_of_singleton in Hi. lia.
    + specialize (Htracked i Hi). lia.
  - unfold numTensors. rewrite Hlive, size_union, size_singleton; [reflexivity |].
    intros i Hi Hl. apply elem_of_singleton in Hi. subst i.
    specialize (Htracked _ Hl). lia.
  - rewrite Hlive. apply elem_of_union_l. now apply elem_of_singleton.
Qed.

Lemma afterTranspose_facts (w : world) (p : nat) :
  tracked w -> p ∈ live w ->
  tracked (afterTranspose w) /\
  numTensors (afterTranspose w) = (numTensors w + 1)%nat /\
  p ∈ live (afterTranspose w).
Proof.
  intros Htracked Hp. pose proof (Htracked _ Hp) as Hlt.
  unfold afterTranspose. split; [auto 20 with tensors |]. split; [| live_solver].
  count_tensors. lia.
Qed.

Lemma afterSuppression_facts (w : world) (p : nat) :
  tracked w -> p ∈ live w ->
  tracked (afterSuppression w) /\
  numTensors (afterSuppression w) = (numTensors w + 5)%nat /\
  p ∈ live (afterSuppression w).
Proof.
  intros Htracked Hp. pose proof (Htracked _ Hp) as Hlt.
  unfold afterSuppression, afterTranspose. cbn zeta.
  split; [auto 20 with tensors |]. split; [| live_solver].
  count_tensors. lia.
Qed.

Lemma drawFrom_run (COCO_CLASSES : list string) (ctx : Canvas) (boxList : list (list Q))
  (classList : list Z) (scoreList : list Q) (i : nat) (w : world) :
  (i + length scoreList <= length boxList)%nat ->
  exists o, drawFrom COCO_CLASSES ctx boxList classList i scoreList w
            = (Ok tt, ctx2d.repaint o w).
Proof.
  revert i w. induction scoreList as [| s rest IH]; intros i w Hlen; simpl.
  - exists (overlay w). unfold ret. destruct w; reflexivity.
  - simpl in Hlen. destruct (lookup_lt_is_Some_2 boxList i) as [box Hbox]; [lia |].
    rewrite Hbox.
    destruct box as [| x [| y [| width [| height rest']]]];
      try (apply IH; lia).
    unfold ctx2d.strokeRect, ctx2d.fillRect, ctx2d.fillText, ctx2d.paint.
    unfold bind at 1. unfold bind at 1. unfold bind at 1.
    match goal with |- context [drawFrom _ _ _ _ _ _ ?w1] =>
      destruct (IH (S i) w1) as [o Ho]; [lia |]; rewrite Ho end.
    exists o. reflexivity.
Qed.

Lemma drawBoundingBoxes_run (COCO_CLASSES : list string) (ctx : Canvas)
  (boxList : list (list Q)) (scoreList : list Q) (classList : list Z) (w : world) :
  (length scoreList <= length boxList)%nat ->
  exists o, drawBoundingBoxes COCO_CLASSES ctx boxList scoreList classList w
            = (Ok tt, ctx2d.repaint o w).
Proof.
  intros Hlen. unfold drawBoundingBoxes, ctx2d.clearAll. unfold bind at 1.
  destruct (drawFrom_run COCO_CLASSES ctx boxList classList scoreList 0
              (ctx2d.repaint [] w)) as [o Ho]; [simpl; lia |].
  rewrite Ho. exists o. reflexivity.
Qed.

Lemma preprocess_run (video : Video) (inputHeight inputWidth : nat) (w : world) :
  decodable video = true ->
  exists x,
    tf.tidy (fun t : Tensor sym => [tid t])
      (frame <- tf.fromPixels video ;;
       resized <- tf.resize OpResizeBilinear frame inputHeight inputWidth ;;
       scaled <- tf.opNum OpDiv resized 255 ;;
       tf.opNum OpExpandDims scaled 0) w
    = (Ok (mkTensor (3 + nextId w) x), afterPreprocess w).
Proof.
  intros Hready. eexists. erewrite tidy_Ok; cycle 1.
  { unfold tf.fromPixels. rewrite Hready.
    erewrite bind_Ok by apply newTensor_run.
    unfold tf.resize, tf.opNum.
    do 2 (erewrite bind_Ok; cycle 1;
          [ erewrite bind_Ok by (apply throwIfDisposed_live; live_solver);
            apply newTensor_run | ]).
    erewrite bind_Ok by (apply throwIfDisposed_live; live_solver).
    apply newTensor_run. }
  reflexivity.
Qed.

(** A tick of the YOLO component that passes its guards, on a decodable
    frame and with a model that returns well-shaped output, runs to its
    end and leaves one or five more tensors alive than it found. *)
Lemma detectionTick_run (COCO_CLASSES : list string) (model : GraphModel)
  (video : Video) (ctx : Canvas) (w : world) :
  wellShaped model -> decodable video = true -> tracked w ->
  exists w', detectionTick COCO_CLASSES model video ctx w = (Ok tt, w') /\
             tracked w' /\
             (numTensors w' = (numTensors w + 1)%nat \/
              numTensors w' = (numTensors w + 5)%nat).
Proof.
  intros Hmodel Hready Htracked. unfold detectionTick.
  destruct (preprocess_run video (nth 1 (inputShape model) 0%nat)
              (nth 2 (inputShape model) 0%nat) w Hready) as [x Hpre].
  erewrite bind_Ok by exact Hpre.
  destruct (afterPreprocess_facts w Htracked) as (Hn & Ht1 & Hc1 & Hl1).
  set (w1 := afterPreprocess w) in *.
  destruct (Hmodel x) as (data & Hdata & Hlen). revert Hlen.
  erewrite bind_Ok; cycle 1.
  { unfold tf.execute.
    erewrite bind_Ok by (apply throwIfDisposed_live; exact Hl1).
    cbn [tval]. rewrite Hdata. apply newTensor_run. }
  erewrite bind_Ok by apply dispose_run.
  cbn [tid].
  set (w3 := tf.release (3 + nextId w) (tf.allocate OpExecute w1)).
  assert (tracked w3) as Ht3 by (subst w3; auto with tensors).
  assert (nextId w1 ∈ live w3) as Hp3 by (subst w3; live_solver).
  assert (numTensors w3 = S (numTensors w)) as Hc3.
  { subst w3. rewrite numTensors_release_live by live_solver.
    rewrite numTensors_allocate by exact Ht1. rewrite Hc1. reflexivity. }
  intros Hlen.
  destruct (processOutput_run (mkTensor (nextId w1) data)
              (videoWidth video / Qnat (nth 2 (inputShape model) 0%nat))
              (videoHeight video / Qnat (nth 1 (inputShape model) 0%nat)) w3)
    as (fb & fs & fc & w4 & Hrun & Hfb & Hfs & _ & Hw4); [now split |].
  erewrite bind_Ok by exact Hrun.
  destruct (gatherRows_lookup _ _ _ Hfb) as [Hlb _].
  destruct (gatherRows_lookup _ _ _ Hfs) as [Hls _].
  destruct (drawBoundingBoxes_run COCO_CLASSES ctx fb fs fc w4) as [o Hdraw]; [lia |].
  erewrite bind_Ok by exact Hdraw.
  eexists. split; [apply dispose_run |]. cbn [tid].
  assert (tracked w4 /\ nextId w1 ∈ live w4 /\
          (numTensors w4 = (numTensors w3 + 1)%nat \/
           numTensors w4 = (numTensors w3 + 5)%nat)) as (Ht4 & Hp4 & Hc4).
  { destruct Hw4 as [[_ ->] | [_ ->]].
    - destruct (afterTranspose_facts w3 _ Ht3 Hp3) as (? & ? & ?). auto.
    - destruct (afterSuppression_facts w3 _ Ht3 Hp3) as (? & ? & ?). auto. }
  split.
  - apply tracked_release. intros i Hi. exact (Ht4 i Hi).
  - rewrite numTensors_release_live by exact Hp4.
    change (numTensors (ctx2d.repaint o w4)) with (numTensors w4). lia.
Qed.

(** ** Ticks that are skipped *)

Lemma not_decodable_below_3 (video : Video) :
  decodable video = false -> (readyState video <? 3)%nat = true.
Proof.
  unfold decodable, HAVE_CURRENT_DATA. intros H.
  apply Nat.leb_gt in H. apply Nat.ltb_lt. lia.
Qed.

Lemma not_decodable_not_4 (video : Video) :
  decodable video = false -> (readyState video =? 4)%nat = false.
Proof.
  unfold decodable, HAVE_CURRENT_DATA. intros H.
  apply Nat.leb_gt in H. apply Nat.eqb_neq. lia.
Qed.

Lemma yolo_guard_unready (COCO_CLASSES : list string) (model : option GraphModel)
  (video : Video) (canvas : option Canvas) :
  unready model video ->
  RealTimeDetector.guarded COCO_CLASSES model (Some video) canvas = None.
Proof.
  intros [-> | H]; [reflexivity |]. unfold RealTimeDetector.guarded.
  destruct model, canvas; try reflexivity. now rewrite (not_decodable_below_3 _ H).
Qed.

Lemma coco_guard_unready (model : option CocoApp.ObjectDetection)
  (video : Video) (canvas : option Canvas) :
  unready model video -> CocoApp.guarded model (Some video) canvas = None.
Proof.
  intros [-> | H]; [reflexivity |]. unfold CocoApp.guarded.
  destruct model; try reflexivity. now rewrite (not_decodable_not_4 _ H).
Qed.

(** C9.  When the model is not loaded or the frame of the video cannot be
    decoded yet, a tick returns at once and leaves everything as it was: no
    library call is made, no tensor is created, the canvas, the console and
    the component keep their content.  This holds for the tick of the YOLO
    component, for [detectObjects] of the coco-ssd component (also as an
    event of its timer loop) and, for the frame, for the stand-alone
    [runDetectionLoop], which is given a loaded model. *)
Theorem unready_tick_is_skipped
  (COCO_CLASSES : list string)
  (processOutput : Tensor (list Q) -> Q -> Q -> M (list (list Q) * list Q * list Z))
  (drawBoundingBoxes : Canvas -> list (list Q) -> list Q -> list Z -> list string -> M unit)
  (yolo : option GraphModel) (coco : option CocoApp.ObjectDetection)
  (loaded : GraphModel) (video : Video) (canvasRef : option Canvas) (canvas : Canvas)
  (s : CocoApp.app) (w : world) :
  unready yolo video -> unready coco video ->
  RealTimeDetector.runDetectionLoop COCO_CLASSES yolo (Some video) canvasRef w = (Ok tt, w) /\
  CocoApp.detectObjects coco (Some video) canvasRef w = (Ok tt, w) /\
  (CocoApp.timerOn s = true ->
   CocoApp.step (CocoApp.Timer (CocoApp.mkEnv coco (Some video) canvasRef)) s = Some s) /\
  (decodable video = false ->
   DetectionLoop.runDetectionLoop processOutput drawBoundingBoxes COCO_CLASSES
     loaded video canvas w = (Ok tt, w)).
Proof.
  intros Hyolo Hcoco. repeat split.
  - unfold RealTimeDetector.runDetectionLoop. now rewrite yolo_guard_unready.
  - unfold CocoApp.detectObjects. now rewrite coco_guard_unready.
  - intros Hon. simpl. rewrite Hon. now rewrite coco_guard_unready.
  - intros H. unfold DetectionLoop.runDetectionLoop.
    now rewrite (not_decodable_below_3 _ H).
Qed.

Lemma unready_tick_is_skipped_witness :
  RealTimeDetector.runDetectionLoop ["person"] (Some Example.silent)
    (Some Example.loading) (Some Example.canvas) Example.idle = (Ok tt, Example.idle) /\
  CocoApp.detectObjects (Some Example.finding) (Some Example.loading)
    (Some Example.canvas) Example.idle = (Ok tt, Example.idle).
Proof.
  destruct (unready_tick_is_skipped ["person"] RealTimeDetector.processOutput
              (fun _ _ _ _ _ => ret tt)
              (Some Example.silent) (Some Example.finding) Example.silent
              Example.loading (Some Example.canvas) Example.canvas
              (CocoApp.mounted Example.idle) Example.idle) as (H1 & H2 & _).
  - right. reflexivity.
  - right. reflexivity.
  - split; [exact H1 | exact H2].
Defined.

(** ** The loop driven by animation frames *)

Section AnimationLoop.

Variable COCO_CLASSES : list string.

Abbreviation step := (RealTimeDetector.step COCO_CLASSES).
Abbreviation steps := (RealTimeDetector.steps COCO_CLASSES).
Abbreviation loop := (RealTimeDetector.loop COCO_CLASSES).

Lemma loop_sequential (e : Env) (w : world) (h : list mark) :
  orderly h = true ->
  sequential (loop e (mkController true 0 [] w h)).
Proof.
  intros Hh. unfold RealTimeDetector.loop.
  destruct (guarded _ _ _ _); repeat split; simpl; try discriminate; auto.
Qed.

Lemma step_sequential (ev : event) (s s' : controller) :
  sequential s -> step ev s = Some s' -> sequential s'.
Proof.
  intros (Hidle & Hone & Hh) Hstep. destruct ev as [e | e | k]; simpl in Hstep.
  - unfold RealTimeDetector.startLoop in Hstep. destruct (loopStarted s) eqn:Hs.
    + inversion Hstep; subst s'. split; [rewrite Hs; discriminate | now split].
    + destruct (Hidle eq_refl) as [Hi Hf]. rewrite Hi, Hf in Hstep.
      inversion Hstep; subst s'. now apply loop_sequential.
  - destruct (framesRequested s) as [| n] eqn:Hf; [discriminate |].
    assert (inflight s = [] /\ n = 0%nat) as [Hi ->].
    { destruct (inflight s); simpl in Hone; [split; [reflexivity | lia] | lia]. }
    rewrite Hi in Hstep. inversion Hstep; subst s'.
    destruct (loopStarted s) eqn:Hs.
    + now apply loop_sequential.
    + destruct (Hidle eq_refl) as [_ Hz]. lia.
  - destruct (inflight s !! k) as [tick |] eqn:Hk; [| discriminate].
    pose proof (lookup_lt_Some _ _ _ Hk) as Hlt.
    assert (length (delete k (inflight s)) = 0%nat /\ framesRequested s = 0%nat)
      as [Hd Hf].
    { rewrite length_delete by (exists tick; exact Hk). unfold M in *. lia. }
    apply length_zero_iff_nil in Hd.
    assert (loopStarted s = true) as Hs.
    { destruct (loopStarted s) eqn:Hs; [reflexivity |].
      destruct (Hidle eq_refl) as [Hi _]. rewrite Hi in Hk. discriminate. }
    destruct (tick (theWorld s)) as [[[] | msg] w']; inversion Hstep; subst s';
      unfold sequential; cbn [loopStarted inflight framesRequested history];
      rewrite Hd, ?Hf, Hs;
      (split; [discriminate | split; [simpl; lia | simpl; exact Hh]]).
Qed.

Lemma steps_sequential (evs : list event) (s s' : controller) :
  sequential s -> steps evs s = Some s' -> sequential s'.
Proof.
  revert s. induction evs as [| ev evs IH]; intros s Hs Hsteps; simpl in Hsteps.
  - now inversion Hsteps; subst.
  - destruct (step ev s) as [s1 |] eqn:Hstep; [| discriminate].
    eapply IH; [eapply step_sequential; eassumption | exact Hsteps].
Qed.

(** Once a tick has thrown, nothing is awaited and no frame is requested:
    no event changes the loop any more. *)
Lemma stopped_forever (s : controller) :
  loopStarted s = true -> framesRequested s = 0%nat -> inflight s = [] ->
  forall evs s', steps evs s = Some s' -> s' = s.
Proof.
  intros Hs Hf Hi evs. induction evs as [| ev evs IH]; intros s' Hsteps; simpl in Hsteps.
  - now inversion Hsteps.
  - destruct ev as [e | e | k]; simpl in Hsteps.
    + unfold RealTimeDetector.startLoop in Hsteps. rewrite Hs in Hsteps. now apply IH.
    + rewrite Hf in Hsteps. discriminate.
    + rewrite Hi in Hsteps. discriminate.
Qed.

End AnimationLoop.

(** C6, for the loop of [startLoop].  However the events of the page are
    interleaved, at most one tick is awaited or one animation frame
    requested, never both: a tick starts only when none is in progress.
    Every call of [requestAnimationFrame] directly follows the end of a
    tick, one that was skipped at its guards or one that returned after
    painting. *)
Theorem animation_ticks_do_not_overlap (COCO_CLASSES : list string)
  (evs : list event) (w : world) (s : controller) :
  RealTimeDetector.steps COCO_CLASSES evs (mounted w) = Some s ->
  (length (inflight s) + framesRequested s <= 1)%nat /\
  orderly (history s) = true.
Proof.
  intros Hsteps.
  destruct (steps_sequential COCO_CLASSES evs (mounted w) s) as (_ & Hone & Hh).
  - repeat split; simpl; auto.
  - exact Hsteps.
  - now split.
Qed.

Lemma animation_ticks_do_not_overlap_witness :
  exists s,
    RealTimeDetector.steps ["person"]
      [StartLoop (Example.yoloEnv Example.silent); Settle 0]
      (mounted Example.idle) = Some s /\
    (length (inflight s) + framesRequested s <= 1)%nat /\
    orderly (history s) = true.
Proof.
  destruct (RealTimeDetector.steps ["person"]
              [StartLoop (Example.yoloEnv Example.silent); Settle 0]
              (mounted Example.idle)) as [s |] eqn:E.
  - exists s. split; [reflexivity |].
    exact (animation_ticks_do_not_overlap ["person"] _ _ s E).
  - vm_compute in E. discriminate E.
Defined.

(** C6 fails on the loop of the coco-ssd component: the timer fires
    whether or not the previous [detectObjects] has returned.  After two
    firings two ticks wait for [model.detect] and neither has painted. *)
Lemma interval_ticks_overlap :
  exists s,
    CocoApp.steps
      [CocoApp.SetInterval; CocoApp.Timer (Example.cocoEnv Example.finding);
       CocoApp.Timer (Example.cocoEnv Example.finding)]
      (CocoApp.mounted Example.idle) = Some s /\
    length (CocoApp.inflight s) = 2%nat /\
    CocoApp.theWorld s = Example.idle.
Proof. eexists. split; [reflexivity |]. split; reflexivity. Qed.

(** ** A tick whose inference fails *)

Lemma delete_last {A : Type} (l : list A) (x : A) : delete (length l) (l ++ [x]) = l.
Proof.
  induction l as [| a l IH]; simpl; [reflexivity |]. now rewrite IH.
Qed.

Lemma lookup_last {A : Type} (l : list A) (x : A) : (l ++ [x]) !! length l = Some x.
Proof.
  induction l as [| a l IH]; simpl; [reflexivity | exact IH].
Qed.

(** C7, for the loop of the coco-ssd component.  When [model.detect] is
    rejected during a tick, that tick ends there: the canvas and the
    console are as before, the tick is no longer awaited, the timer stays
    set; and the next firing of the timer runs the next tick, which clears
    the canvas and paints what it detected. *)
Theorem rejected_detect_ends_one_tick (s : CocoApp.app)
  (model model' : CocoApp.ObjectDetection) (video video' : Video)
  (canvasRef : option Canvas) (canvas' : Canvas)
  (predictions : list CocoApp.DetectedObject) :
  CocoApp.timerOn s = true ->
  readyState video = 4%nat -> CocoApp.detect model (currentFrame video) = None ->
  readyState video' = 4%nat ->
  CocoApp.detect model' (currentFrame video') = Some predictions ->
  has2d canvas' = true ->
  exists s1 s2,
    CocoApp.steps
      [CocoApp.Timer (CocoApp.mkEnv (Some model) (Some video) canvasRef);
       CocoApp.Settle (length (CocoApp.inflight s))] s = Some s1 /\
    CocoApp.timerOn s1 = true /\
    CocoApp.inflight s1 = CocoApp.inflight s /\
    CocoApp.theWorld s1 = CocoApp.called (CocoApp.theWorld s) /\
    overlay (CocoApp.theWorld s1) = overlay (CocoApp.theWorld s) /\
    console (CocoApp.theWorld s1) = console (CocoApp.theWorld s) /\
    CocoApp.steps
      [CocoApp.Timer (CocoApp.mkEnv (Some model') (Some video') (Some canvas'));
       CocoApp.Settle (length (CocoApp.inflight s1))] s1 = Some s2 /\
    CocoApp.inflight s2 = CocoApp.inflight s /\
    CocoApp.theWorld s2 =
      snd (CocoApp.drawDetection predictions
             (ctx2d.repaint [] (CocoApp.called (CocoApp.theWorld s1)))).
Proof.
  intros Hon Hready Hfail Hready' Hfound Hctx.
  exists (CocoApp.mkApp true (CocoApp.inflight s) (CocoApp.called (CocoApp.theWorld s))).
  eexists. cbn [CocoApp.timerOn CocoApp.inflight CocoApp.theWorld].
  split.
  { cbn [CocoApp.steps CocoApp.step CocoApp.envModel CocoApp.envVideo CocoApp.envCanvas].
    rewrite Hon. unfold CocoApp.guarded. rewrite Hready. cbn [Nat.eqb].
    cbn [CocoApp.inflight CocoApp.theWorld CocoApp.timerOn].
    rewrite lookup_last, delete_last.
    unfold bind, CocoApp.awaitDetect. rewrite Hfail. reflexivity. }
  split; [reflexivity |]. split; [reflexivity |]. split; [reflexivity |].
  split; [reflexivity |]. split; [reflexivity |].
  split.
  { cbn [CocoApp.steps CocoApp.step CocoApp.envModel CocoApp.envVideo CocoApp.envCanvas
         CocoApp.timerOn].
    unfold CocoApp.guarded. rewrite Hready'. cbn [Nat.eqb].
    cbn [CocoApp.inflight CocoApp.theWorld CocoApp.timerOn].
    rewrite lookup_last, delete_last. reflexivity. }
  cbn [CocoApp.inflight CocoApp.theWorld]. split; [reflexivity |].
  unfold bind at 1, CocoApp.awaitDetect. rewrite Hfound.
  unfold CocoApp.render. rewrite Hctx. unfold bind, ctx2d.clearAll. reflexivity.
Qed.

Lemma rejected_detect_ends_one_tick_witness :
  exists s1 s2,
    CocoApp.steps
      [CocoApp.Timer (Example.cocoEnv Example.rejecting); CocoApp.Settle 0]
      (CocoApp.mkApp true [] Example.idle) = Some s1 /\
    overlay (CocoApp.theWorld s1) = [] /\
    console (CocoApp.theWorld s1) = [] /\
    CocoApp.steps
      [CocoApp.Timer (Example.cocoEnv Example.finding); CocoApp.Settle 0] s1 = Some s2 /\
    overlay (CocoApp.theWorld s2)
      = [StrokeRect 10 20 30 40; FillText (Some "person") 0.9 10 (20 - 5)].
Proof.
  destruct (rejected_detect_ends_one_tick (CocoApp.mkApp true [] Example.idle)
              Example.rejecting Example.finding Example.playing Example.playing
              (Some Example.canvas) Example.canvas [Example.person])
    as (s1 & s2 & H1 & _ & Hin & _ & Ho & Hc & H2 & _ & Hw);
    try reflexivity.
  exists s1, s2. rewrite Hin in H2.
  split; [exact H1 |]. split; [exact Ho |]. split; [exact Hc |].
  split; [exact H2 |]. rewrite Hw. reflexivity.
Defined.

(** C7 fails on the loop of [startLoop].  With a model whose [execute]
    throws, the first tick is awaited and fails; nothing is written to the
    console, no frame has been requested and none is requested later:
    whatever events follow, the loop stays as it is and no further tick
    runs. *)
Lemma animation_loop_stops_on_throw :
  exists s,
    RealTimeDetector.steps ["person"]
      [StartLoop (Example.yoloEnv Example.failing); Settle 0]
      (mounted Example.idle) = Some s /\
    history s = [Failed; Began] /\
    console (theWorld s) = [] /\
    framesRequested s = 0%nat /\
    length (inflight s) = 0%nat /\
    RealTimeDetector.steps ["person"]
      [StartLoop (Example.yoloEnv Example.failing); Settle 0;
       AnimationFrame (Example.yoloEnv Example.silent)]
      (mounted Example.idle) = None /\
    forall evs s', RealTimeDetector.steps ["person"] evs s = Some s' -> s' = s.
Proof.
  eexists. split; [vm_compute; reflexivity |].
  split; [reflexivity |]. split; [reflexivity |].
  split; [reflexivity |]. split; [reflexivity |].
  split; [vm_compute; reflexivity |].
  apply stopped_forever; reflexivity.
Qed.

(** ** Tensors left behind by the detection tick *)

(** The tick of the YOLO component leaks as well: [processOutput] never
    disposes the result of [tf.tensor(data, [84, 8400])], nor, when
    something was detected, the three gathered tensors and the tensor of
    the classes.  After any number of ticks that run to their end, at least
    one tensor per tick has been added. *)
Lemma detection_ticks_leak (COCO_CLASSES : list string) (model : GraphModel)
  (videos : list Video) (ctx : Canvas) (w : world) :
  wellShaped model -> Forall (fun v => decodable v = true) videos -> tracked w ->
  exists w',
    inSequence (map (fun v => detectionTick COCO_CLASSES model v ctx) videos) w
      = (Ok tt, w') /\
    (numTensors w + length videos <= numTensors w')%nat.
Proof.
  intros Hmodel Hready. revert w.
  induction Hready as [| v videos Hv _ IH]; intros w Htracked; simpl.
  - exists w. split; [reflexivity | lia].
  - destruct (detectionTick_run COCO_CLASSES model v ctx w Hmodel Hv Htracked)
      as (w1 & Hrun & Htracked1 & Hc1).
    destruct (IH w1 Htracked1) as (w' & Hrest & Hc).
    exists w'. split; [now rewrite (bind_Ok _ _ _ _ _ Hrun) |]. lia.
Qed.

Example silent_tick_leaves_one_tensor :
  let w' := snd (detectionTick ["person"] Example.silent Example.playing
                   Example.canvas Example.idle) in
  numTensors Example.idle = 0%nat /\ numTensors w' = 1%nat /\ overlay w' = [].
Proof. vm_compute. repeat split; reflexivity. Qed.

(** ** The classification tick *)

Lemma throwIfDisposed_gone {A : Type} (t : Tensor A) (w : world) :
  tid t ∉ live w -> tf.throwIfDisposed t w = (Throw "Tensor is disposed.", w).
Proof. intros H. unfold tf.throwIfDisposed. now rewrite decide_False. Qed.

Lemma attempt_run {A : Type} (m : M A) (w w' : world) (r : result A) :
  m w = (r, w') -> attempt m w = (Ok r, w').
Proof. intros H. unfold attempt. now rewrite H. Qed.

(** [predict], in contrast, releases every tensor it makes: they are all
    created inside the [tf.tidy] scope, the result of [model.predict]
    included.  The top three classes are shown.  The tensor handed to the
    intermediate model is disposed by then, so that call throws and
    nothing is written to the console. *)
Lemma predict_run (IMAGENET_CLASSES : list string) (model : GraphModel)
  (intermediateModel : option GraphModel) (video : Video) (probabilities : list Q)
  (w : world) :
  tracked w -> decodable video = true ->
  (forall x, run model x = Some probabilities) ->
  exists w',
    Classifier.predict IMAGENET_CLASSES (Some model) intermediateModel (Some video) w
      = (Ok tt, w') /\
    live w' = live w /\
    shown w' = Classifier.topK IMAGENET_CLASSES probabilities /\
    console w' = console w.
Proof.
  intros Htracked Hready Hmodel. unfold Classifier.predict.
  erewrite bind_Ok; cycle 1.
  { apply tidy_Ok.
    unfold tf.fromPixels. rewrite Hready.
    erewrite bind_Ok by apply newTensor_run.
    unfold tf.resize, tf.op1, tf.opNum.
    do 5 (erewrite bind_Ok; cycle 1;
          [ erewrite bind_Ok by (apply throwIfDisposed_live; live_solver);
            apply newTensor_run | ]).
    erewrite bind_Ok; cycle 1.
    { apply attempt_run. unfold Classifier.processPredictions_start, tf.execute.
      erewrite bind_Ok; cycle 1.
      { erewrite bind_Ok by (apply throwIfDisposed_live; live_solver).
        cbn [tval]. rewrite Hmodel. apply newTensor_run. }
      apply read_live. live_solver. }
    reflexivity. }
  cbn [snd fst tval nextId tf.allocate].
  set (w1 := tf.endScope _ _ _).
  assert (live w1 = live w) as Hlive.
  { subst w1. cbn [tf.endScope tf.allocate live nextId].
    apply set_eq. intros i. rewrite elem_of_filter.
    set_unfold. specialize (Htracked i). intuition lia. }
  exists (Classifier.display (Classifier.topK IMAGENET_CLASSES probabilities) w1).
  split; [| now repeat split].
  unfold Classifier.processPredictions_resume, Classifier.setPredictions.
  destruct intermediateModel as [intermediate |].
  - erewrite bind_Ok; [reflexivity |].
    apply attempt_run. unfold bind at 1.
    apply bind_Throw. unfold tf.execute. apply bind_Throw.
    apply throwIfDisposed_gone. cbn [tid Classifier.display live]. rewrite Hlive.
    intros Hin. specialize (Htracked _ Hin). lia.
  - reflexivity.
Qed.

(** ** The suppression on small inputs *)

(** On rows that are corners, the nearly coincident second box is
    dropped and the distant third one is kept. *)
Example suppression_on_corner_rows :
  tf.nonMaxSuppressionImpl
    [[0; 0; 10; 10]; [1; 1; 11; 11]; [50; 50; 60; 60]] [0.9; 0.8; 0.7] 20 0.45
  = [0; 2]%nat.
Proof. vm_compute. reflexivity. Qed.

(** Candidates are visited by decreasing score, equal scores by
    increasing index. *)
Example suppression_visit_order :
  tf.nonMaxSuppressionImpl
    [[0; 0; 1; 1]; [10; 10; 11; 11]; [20; 20; 21; 21]] [0.9; 0.9; 0.95] 20 0.45
  = [2; 0; 1]%nat.
Proof. vm_compute. reflexivity. Qed.

(** The selection stops at [maxOutputSize]. *)
Example suppression_cap :
  tf.nonMaxSuppressionImpl
    [[0; 0; 1; 1]; [10; 10; 11; 11]; [20; 20; 21; 21]] [0.9; 0.8; 0.7] 2 0.45
  = [0; 1]%nat.
Proof. vm_compute. reflexivity. Qed.

(** * Further properties of the code *)

Import Terms.

(** ** The class chosen for a proposal *)

(** The scan keeps the first of the highest class scores: what it returns
    is either the pair it started from, when no score is above the starting
    one, or a class score with its index, above the starting score, with
    only smaller scores before it and no larger score anywhere. *)
Lemma scanScores_first (classScores : list Q) (i : Z) (maxScore : Q) (classId : Z)
  (m : Q) (c : Z) :
  scanScores classScores i maxScore classId = (m, c) ->
  Forall (fun s => s <= m) classScores /\
  ((m = maxScore /\ c = classId) \/
   exists k, classScores !! k = Some m /\ c = (i + Z.of_nat k)%Z /\
             maxScore < m /\ Forall (fun s => s < m) (take k classScores)).
Proof.
  revert i maxScore classId.
  induction classScores as [| s rest IH]; intros i maxScore classId H; simpl in H.
  - inversion H; subst. split; [constructor | now left].
  - destruct (JS.ltb maxScore s) eqn:E.
    + apply ltb_lt in E. destruct (IH _ _ _ H) as (Hall & Hwhere).
      destruct Hwhere as [[-> ->] | (k & Hk & -> & Hlt & Hbefore)].
      * split; [constructor; [apply Qle_refl | exact Hall] |]. right.
        exists 0%nat. split; [reflexivity |]. split; [lia |].
        split; [exact E | constructor].
      * split; [constructor; [lra | exact Hall] |]. right.
        exists (S k). split; [exact Hk |]. split; [lia |]. split; [lra |].
        simpl. constructor; [exact Hlt | exact Hbefore].
    + apply ltb_ge in E. destruct (IH _ _ _ H) as (Hall & Hwhere).
      destruct Hwhere as [[-> ->] | (k & Hk & -> & Hlt & Hbefore)].
      * split; [constructor; [exact E | exact Hall] |]. now left.
      * split; [constructor; [lra | exact Hall] |]. right.
        exists (S k). split; [exact Hk |]. split; [lia |]. split; [exact Hlt |].
        simpl. constructor; [lra | exact Hbefore].
Qed.

(** X1.  The scan over the class scores of a proposal, started as the
    code starts it, returns [(-1, -1)] when there is no score above -1 (in
    particular for no scores at all), and otherwise the highest score with
    the index of its first occurrence. *)
Theorem scanScores_first_maximum (classScores : list Q) :
  let '(m, c) := scanScores classScores 0%Z (-1) (-1)%Z in
  Forall (fun s => s <= m) classScores /\
  ((Forall (fun s => s <= -1) classScores /\ m = -1 /\ c = (-1)%Z) \/
   exists k, c = Z.of_nat k /\ classScores !! k = Some m /\ -1 < m /\
             Forall (fun s => s < m) (take k classScores)).
Proof.
  destruct (scanScores classScores 0%Z (-1) (-1)%Z) as [m c] eqn:Hscan.
  destruct (scanScores_first _ _ _ _ _ _ Hscan) as (Hall & Hwhere).
  split; [exact Hall |].
  destruct Hwhere as [[-> ->] | (k & Hk & -> & Hlt & Hbefore)].
  - left. now repeat split.
  - right. exists k. split; [lia |]. split; [exact Hk |]. now split.
Qed.

(** ** Boxes, scores and classes belong together *)




(** ** The order of the returned detections *)



(** The loop selects, in the order of visit, some of the candidates. *)
Lemma selectLoop_sublist (boxList : list (list Q)) (maxOutputSize : nat)
  (iouThreshold : Q) (candidates : list tf.Candidate) (selected : list nat) :
  exists picked,
    picked `sublist_of` candidates /\
    tf.selectLoop boxList maxOutputSize iouThreshold candidates selected
    = selected ++ map tf.boxIndex picked.
Proof.
  revert selected. induction candidates as [| c rest IH]; intros selected; simpl.
  - exists []. split; [constructor | now rewrite app_nil_r].
  - destruct (length selected <? maxOutputSize)%nat.
    + destruct (existsb _ (rev selected)).
      * destruct (IH selected) as (picked & Hsub & ->).
        exists picked. split; [now constructor | reflexivity].
      * destruct (IH (selected ++ [tf.boxIndex c])) as (picked & Hsub & ->).
        exists (c :: picked). split; [now constructor |].
        now rewrite <- app_assoc.
    + exists []. split; [apply sublist_nil_l | now rewrite app_nil_r].
Qed.








(** ** [processOutput] on a tensor it cannot use *)

(** X4.  When the output tensor is disposed, or does not hold the
    [84 * 8400] values of the shape, [processOutput] throws before it has
    made a tensor: the runtime, the canvas and the console are as they
    were. *)
Theorem processOutput_rejects (predictions : Tensor (list Q))
  (widthRatio heightRatio : Q) (w : world) :
  ~ wellFormed predictions w ->
  exists msg, processOutput predictions widthRatio heightRatio w = (Throw msg, w).
Proof.
  unfold wellFormed, processOutput. generalize numAttributes, numProposals.
  intros na np Hbad.
  destruct (decide (tid predictions ∈ live w)) as [Hlive | Hgone].
  - erewrite bind_Ok by (now apply read_live).
    unfold tf.tensor.
    destruct (Nat.eqb_spec (length (tval predictions)) (na * np)) as [Hlen | Hlen].
    + destruct Hbad. now split.
    + eexists. reflexivity.
  - eexists. apply bind_Throw. unfold tf.read. apply bind_Throw.
    now apply throwIfDisposed_gone.
Qed.

Lemma processOutput_rejects_witness :
  exists msg,
    processOutput (mkTensor 7 (tval Example.quiet)) 1 1 Example.idle
    = (Throw msg, Example.idle).
Proof.
  apply (processOutput_rejects (mkTensor 7 (tval Example.quiet)) 1 1 Example.idle).
  intros [Hlive _]. cbn [tid Example.idle live] in Hlive.
  now apply not_elem_of_empty in Hlive.
Defined.

(** ** The tensors [processOutput] leaves behind *)

Lemma selectLoop_first (boxList : list (list Q)) (maxOutputSize : nat) (iouThreshold : Q)
  (candidates : list tf.Candidate) :
  candidates <> [] -> (0 < maxOutputSize)%nat ->
  tf.selectLoop boxList maxOutputSize iouThreshold candidates [] <> [].
Proof.
  intros Hne Hmax. destruct candidates as [| c rest]; [congruence |].
  cbn [tf.selectLoop length rev existsb].
  destruct (Nat.ltb_spec 0 maxOutputSize) as [_ | ?]; [| lia].
  cbn [app].
  destruct (selectLoop_sublist boxList maxOutputSize iouThreshold rest [tf.boxIndex c])
    as (picked & _ & ->).
  discriminate.
Qed.

Lemma selection_nonempty (acc : arrays) :
  aligned acc -> boxes acc <> [] -> selection acc <> [].
Proof.
  intros (Hs & _ & _) Hne. unfold selection, tf.nonMaxSuppressionImpl.
  assert (0 < length (boxes acc))%nat as Hpos.
  { destruct (boxes acc); [congruence | simpl; lia]. }
  apply selectLoop_first; [| lia].
  intros Hnil. apply (f_equal length) in Hnil.
  rewrite length_rev, sort_length, length_imap in Hnil. simpl in Hnil. lia.
Qed.

(** X5.  [processOutput] never disposes the tensor it makes with
    [tf.tensor(data, [84, 8400])], nor, when it goes on to the suppression,
    the three gathered tensors and the tensor of the classes.  So a call
    that returns no detection leaves one tensor more alive than it found,
    a call that returns detections five more; the tensor it was given
    stays alive in both cases. *)
Theorem processOutput_tensor_balance (predictions : Tensor (list Q))
  (widthRatio heightRatio : Q) (w : world) :
  wellFormed predictions w -> tracked w ->
  exists finalBoxes finalScores finalClasses w',
    processOutput predictions widthRatio heightRatio w
      = (Ok (finalBoxes, finalScores, finalClasses), w') /\
    tid predictions ∈ live w' /\
    (finalBoxes = [] -> numTensors w' = (numTensors w + 1)%nat) /\
    (finalBoxes <> [] -> numTensors w' = (numTensors w + 5)%nat).
Proof.
  intros Hwf Htracked. pose proof Hwf as [Hlive _].
  destruct (processOutput_run predictions widthRatio heightRatio w Hwf)
    as (fb & fs & fc & w' & Hrun & Hfb & _ & _ & Hw').
  exists fb, fs, fc, w'. split; [exact Hrun |].
  pose proof (collect_aligned widthRatio heightRatio (proposalsOf predictions)) as Hal.
  revert Hfb Hw' Hal. cbn zeta.
  generalize (collect widthRatio heightRatio (proposalsOf predictions)).
  intros acc Hfb Hw' Hal.
  destruct (gatherRows_lookup _ _ _ Hfb) as [Hlen _].
  destruct Hw' as [[Hempty ->] | [Hsome ->]].
  - destruct (afterTranspose_facts w _ Htracked Hlive) as (_ & Hcount & Halive).
    split; [exact Halive |]. split; [now intros _ |].
    intros Hne. exfalso. apply Hne.
    pose proof (nonMaxSuppressionImpl_length (boxes acc) (scores acc)
                  (Nat.min 20 (length (boxes acc))) 0.45) as Hz.
    fold (selection acc) in Hz. rewrite Hempty in Hz. cbn [length Nat.min] in Hz.
    destruct fb; [reflexivity |]. cbn [length] in Hlen. lia.
  - destruct (afterSuppression_facts w _ Htracked Hlive) as (_ & Hcount & Halive).
    split; [exact Halive |]. split; [| now intros _].
    intros ->. exfalso.
    apply (selection_nonempty acc Hal Hsome).
    cbn [length] in Hlen. symmetry in Hlen. now apply length_zero_iff_nil in Hlen.
Qed.

Lemma processOutput_tensor_balance_witness :
  exists finalBoxes finalScores finalClasses w',
    processOutput Example.single 1 1 Example.w0
      = (Ok (finalBoxes, finalScores, finalClasses), w') /\
    tid Example.single ∈ live w' /\
    (finalBoxes = [] -> numTensors w' = (numTensors Example.w0 + 1)%nat) /\
    (finalBoxes <> [] -> numTensors w' = (numTensors Example.w0 + 5)%nat).
Proof.
  apply (processOutput_tensor_balance Example.single 1 1 Example.w0).
  - apply example_wellFormed, few_proposals. simpl. lia.
  - intros i Hi. unfold Example.w0 in *. cbn [live nextId] in *.
    apply elem_of_singleton in Hi. lia.
Defined.

(** ** What [drawBoundingBoxes] paints *)

Lemma repaint_same (w : world) : ctx2d.repaint (overlay w ++ []) w = w.
Proof. rewrite app_nil_r. now destruct w. Qed.

(** The loop of [drawBoundingBoxes] from index [i] on: it adds three
    commands for every score that is left, the frame of the mirrored box,
    the background of the label and the label. *)
Lemma drawFrom_trace (COCO_CLASSES : list string) (ctx : Canvas)
  (boxList : list (list Q)) (classList : list Z) (scoreList : list Q) (i : nat) :
  Forall (fun b => length b = 4%nat) boxList ->
  (i + length scoreList <= length boxList)%nat ->
  exists o,
    (forall w, drawFrom COCO_CLASSES ctx boxList classList i scoreList w
               = (Ok tt, ctx2d.repaint (overlay w ++ o) w)) /\
    length o = (3 * length scoreList)%nat /\
    forall k s x y bw bh,
      scoreList !! k = Some s -> boxList !! (i + k)%nat = Some [x; y; bw; bh] ->
      exists labelY,
        textHeight < labelY /\
        o !! (3 * k)%nat = Some (StrokeRect (canvasWidth ctx - x - bw) y bw bh) /\
        o !! (3 * k + 1)%nat
          = Some (FillRect (canvasWidth ctx - x - bw) (labelY - textHeight)
                    (measureText ctx (cocoName COCO_CLASSES classList (i + k)) s + 4)
                    (textHeight + 4)) /\
        o !! (3 * k + 2)%nat
          = Some (FillText (cocoName COCO_CLASSES classList (i + k)) s
                    (canvasWidth ctx - x - bw + 2) labelY).
Proof.
  intros Hboxes. revert i.
  induction scoreList as [| s0 rest IH]; intros i Hlen.
  - exists []. split; [intros w; symmetry; simpl; f_equal; apply repaint_same |].
    split; [reflexivity |]. intros k s x y bw bh Hk. discriminate Hk.
  - cbn [length] in Hlen.
    destruct (lookup_lt_is_Some_2 boxList i) as [box Hbox]; [lia |].
    assert (length box = 4%nat) as Hfour.
    { rewrite Forall_forall in Hboxes. apply Hboxes.
      eapply list_elem_of_lookup_2. exact Hbox. }
    destruct box as [| x0 [| y0 [| bw0 [| bh0 [| ? ?]]]]]; try discriminate Hfour.
    destruct (IH (S i)) as (o' & Hrun & Hcount & Hcmds); [lia |].
    set (labelY0 := if JS.ltb textHeight y0 then y0 else textHeight + 4).
    exists ([StrokeRect (canvasWidth ctx - x0 - bw0) y0 bw0 bh0;
             FillRect (canvasWidth ctx - x0 - bw0) (labelY0 - textHeight)
               (measureText ctx (cocoName COCO_CLASSES classList i) s0 + 4)
               (textHeight + 4);
             FillText (cocoName COCO_CLASSES classList i) s0
               (canvasWidth ctx - x0 - bw0 + 2) labelY0] ++ o').
    split; [| split].
    + intros w. cbn [drawFrom]. rewrite Hbox.
      unfold ctx2d.strokeRect, ctx2d.fillRect, ctx2d.fillText, ctx2d.paint.
      unfold bind at 1. unfold bind at 1. unfold bind at 1.
      rewrite Hrun. cbn [ctx2d.repaint overlay nextId live oplog console shown].
      unfold ctx2d.repaint. do 2 f_equal.
      now rewrite <- !app_assoc.
    + cbn [length app]. rewrite Hcount. cbn [length]. lia.
    + intros k s x y bw bh Hk Hb. destruct k as [| k].
      * rewrite Nat.add_0_r in *. rewrite Hbox in Hb.
        injection Hk as <-. injection Hb as <- <- <- <-.
        exists labelY0. split; [| repeat split].
        subst labelY0. destruct (JS.ltb textHeight y0) eqn:E.
        -- now apply ltb_lt.
        -- unfold textHeight. lra.
      * cbn [lookup list_lookup] in Hk.
        replace (i + S k)%nat with (S i + k)%nat in * by lia.
        destruct (Hcmds k s x y bw bh Hk Hb) as (labelY & Hpos & H0 & H1 & H2).
        exists labelY. split; [exact Hpos |].
        replace (3 * S k)%nat with (S (S (S (3 * k)))) by lia.
        cbn [app Nat.add]. repeat split; assumption.
Qed.

(** X6.  [drawBoundingBoxes] repaints from scratch: what is on the canvas
    afterwards does not depend on what was there before, and it holds
    three commands for every detection (frame, label background, label).
    Nothing but the canvas changes. *)
Theorem drawBoundingBoxes_repaints (COCO_CLASSES : list string) (ctx : Canvas)
  (boxList : list (list Q)) (scoreList : list Q) (classList : list Z) :
  Forall (fun b => length b = 4%nat) boxList ->
  (length scoreList <= length boxList)%nat ->
  exists o,
    length o = (3 * length scoreList)%nat /\
    forall w, drawBoundingBoxes COCO_CLASSES ctx boxList scoreList classList w
              = (Ok tt, ctx2d.repaint o w).
Proof.
  intros Hboxes Hlen.
  destruct (drawFrom_trace COCO_CLASSES ctx boxList classList scoreList 0 Hboxes)
    as (o & Hrun & Hcount & _); [simpl; lia |].
  exists o. split; [exact Hcount |]. intros w.
  unfold drawBoundingBoxes, ctx2d.clearAll. unfold bind at 1. now rewrite Hrun.
Qed.

Lemma drawBoundingBoxes_repaints_witness :
  exists o,
    length o = (3 * length [0.9%Q])%nat /\
    forall w, drawBoundingBoxes ["person"] Example.canvas [[10; 20; 30; 40]] [0.9] [0%Z] w
              = (Ok tt, ctx2d.repaint o w).
Proof.
  apply (drawBoundingBoxes_repaints ["person"] Example.canvas [[10; 20; 30; 40]] [0.9] [0%Z]).
  - repeat constructor.
  - simpl. lia.
Defined.

(** X7.  The [i]-th detection is painted mirrored: the frame of the box
    [[x, y, width, height]] starts at [canvas.width - x - width], so that
    its right edge is at [canvas.width - x].  The label is never cut by the
    upper edge of the canvas: its baseline is below the height of the text,
    and the background of the label starts that height above it. *)
Theorem drawBoundingBoxes_mirrors (COCO_CLASSES : list string) (ctx : Canvas)
  (boxList : list (list Q)) (scoreList : list Q) (classList : list Z) (w : world)
  (i : nat) (s x y bw bh : Q) :
  Forall (fun b => length b = 4%nat) boxList ->
  (length scoreList <= length boxList)%nat ->
  scoreList !! i = Some s -> boxList !! i = Some [x; y; bw; bh] ->
  let painted :=
    overlay (snd (drawBoundingBoxes COCO_CLASSES ctx boxList scoreList classList w)) in
  exists labelY,
    16 < labelY /\
    painted !! (3 * i)%nat = Some (StrokeRect (canvasWidth ctx - x - bw) y bw bh) /\
    painted !! (3 * i + 1)%nat
      = Some (FillRect (canvasWidth ctx - x - bw) (labelY - 16)
                (measureText ctx (cocoName COCO_CLASSES classList i) s + 4) (16 + 4)) /\
    painted !! (3 * i + 2)%nat
      = Some (FillText (cocoName COCO_CLASSES classList i) s
                (canvasWidth ctx - x - bw + 2) labelY).
Proof.
  intros Hboxes Hlen Hs Hb painted.
  destruct (drawFrom_trace COCO_CLASSES ctx boxList classList scoreList 0 Hboxes)
    as (o & Hrun & _ & Hcmds); [simpl; lia |].
  assert (painted = o) as ->.
  { subst painted. unfold drawBoundingBoxes, ctx2d.clearAll. unfold bind at 1.
    now rewrite Hrun. }
  exact (Hcmds i s x y bw bh Hs Hb).
Qed.

Lemma drawBoundingBoxes_mirrors_witness :
  let painted :=
    overlay (snd (drawBoundingBoxes ["person"] Example.canvas [[10; 2; 30; 40]] [0.9]
                    [0%Z] Example.idle)) in
  exists labelY,
    16 < labelY /\
    painted !! (3 * 0)%nat = Some (StrokeRect (640 - 10 - 30) 2 30 40) /\
    painted !! (3 * 0 + 1)%nat
      = Some (FillRect (640 - 10 - 30) (labelY - 16) (40 + 4) (16 + 4)) /\
    painted !! (3 * 0 + 2)%nat
      = Some (FillText (Some "person") 0.9 (640 - 10 - 30 + 2) labelY).
Proof.
  apply (drawBoundingBoxes_mirrors ["person"] Example.canvas [[10; 2; 30; 40]] [0.9] [0%Z]
           Example.idle 0 0.9 10 2 30 40).
  - repeat constructor.
  - simpl. lia.
  - reflexivity.
  - reflexivity.
Defined.

(** The loop of [drawBoundingBoxes] when the scores outnumber the boxes. *)
Lemma drawFrom_throws (COCO_CLASSES : list string) (ctx : Canvas)
  (boxList : list (list Q)) (classList : list Z) (scoreList : list Q) (i : nat) :
  Forall (fun b => length b = 4%nat) boxList ->
  (i <= length boxList)%nat -> (length boxList < i + length scoreList)%nat ->
  exists o,
    length o = (3 * (length boxList - i))%nat /\
    forall w, drawFrom COCO_CLASSES ctx boxList classList i scoreList w
              = (Throw "TypeError: boxes[i] is not iterable",
                 ctx2d.repaint (overlay w ++ o) w).
Proof.
  intros Hboxes. revert i.
  induction scoreList as [| s0 rest IH]; intros i Hle Hlt; cbn [length] in Hlt; [lia |].
  destruct (boxList !! i) as [box |] eqn:Hbox.
  - pose proof (lookup_lt_Some _ _ _ Hbox) as Hi.
    assert (length box = 4%nat) as Hfour.
    { rewrite Forall_forall in Hboxes. apply Hboxes.
      eapply list_elem_of_lookup_2. exact Hbox. }
    destruct box as [| x0 [| y0 [| bw0 [| bh0 [| ? ?]]]]]; try discriminate Hfour.
    destruct (IH (S i)) as (o' & Hcount & Hrun); [lia | lia |].
    eexists (_ :: _ :: _ :: o'). split.
    + cbn [length]. rewrite Hcount. lia.
    + intros w. cbn [drawFrom]. rewrite Hbox.
      unfold ctx2d.strokeRect, ctx2d.fillRect, ctx2d.fillText, ctx2d.paint.
      unfold bind at 1. unfold bind at 1. unfold bind at 1.
      rewrite Hrun. cbn [ctx2d.repaint overlay nextId live oplog console shown].
      unfold ctx2d.repaint. do 2 f_equal.
      rewrite <- !app_assoc. reflexivity.
  - apply lookup_ge_None in Hbox. exists []. split.
    + cbn [length]. lia.
    + intros w. cbn [drawFrom].
      destruct (boxList !! i) as [box |] eqn:Hbox'.
      * apply lookup_lt_Some in Hbox'. lia.
      * unfold throw. now rewrite repaint_same.
Qed.

(** X8.  With more scores than boxes [drawBoundingBoxes] throws when it
    reaches the first missing box: by then it has cleared the canvas and
    painted every box there is. *)
Theorem drawBoundingBoxes_missing_box (COCO_CLASSES : list string) (ctx : Canvas)
  (boxList : list (list Q)) (scoreList : list Q) (classList : list Z) :
  Forall (fun b => length b = 4%nat) boxList ->
  (length boxList < length scoreList)%nat ->
  exists o,
    length o = (3 * length boxList)%nat /\
    forall w, drawBoundingBoxes COCO_CLASSES ctx boxList scoreList classList w
              = (Throw "TypeError: boxes[i] is not iterable", ctx2d.repaint o w).
Proof.
  intros Hboxes Hlen.
  destruct (drawFrom_throws COCO_CLASSES ctx boxList classList scoreList 0 Hboxes)
    as (o & Hcount & Hrun); [lia | simpl; lia |].
  exists o. split; [rewrite Hcount; f_equal; lia |]. intros w.
  unfold drawBoundingBoxes, ctx2d.clearAll. unfold bind at 1. now rewrite Hrun.
Qed.

Lemma drawBoundingBoxes_missing_box_witness :
  exists o,
    length o = (3 * length [[10; 20; 30; 40]%Q])%nat /\
    forall w, drawBoundingBoxes ["person"] Example.canvas [[10; 20; 30; 40]] [0.9; 0.8]
                [0%Z; 0%Z] w
              = (Throw "TypeError: boxes[i] is not iterable", ctx2d.repaint o w).
Proof.
  apply (drawBoundingBoxes_missing_box ["person"] Example.canvas [[10; 20; 30; 40]]
           [0.9; 0.8] [0%Z; 0%Z]).
  - repeat constructor.
  - simpl. lia.
Defined.

(** X9.  What [processOutput] returns can always be painted: given its
    three arrays, [drawBoundingBoxes] does not throw, and it paints three
    commands for each of the at most twenty detections. *)
Theorem detections_are_painted (COCO_CLASSES : list string) (ctx : Canvas)
  (predictions : Tensor (list Q)) (widthRatio heightRatio : Q) (w : world) :
  wellFormed predictions w ->
  exists finalBoxes finalScores finalClasses w1 o,
    processOutput predictions widthRatio heightRatio w
      = (Ok (finalBoxes, finalScores, finalClasses), w1) /\
    drawBoundingBoxes COCO_CLASSES ctx finalBoxes finalScores finalClasses w1
      = (Ok tt, ctx2d.repaint o w1) /\
    length o = (3 * length finalBoxes)%nat /\
    (length o <= 60)%nat.
Proof.
  intros Hwf.
  destruct (processOutput_run predictions widthRatio heightRatio w Hwf)
    as (fb & fs & fc & w1 & Hrun & Hfb & Hfs & _ & _).
  pose proof (collect_aligned widthRatio heightRatio (proposalsOf predictions)) as Hal.
  revert Hfb Hfs Hal. cbn zeta.
  generalize (collect widthRatio heightRatio (proposalsOf predictions)).
  intros acc Hfb Hfs (_ & _ & Hfour).
  destruct (gatherRows_lookup _ _ _ Hfb) as [Hlb _].
  destruct (gatherRows_lookup _ _ _ Hfs) as [Hls _].
  pose proof (nonMaxSuppressionImpl_length (boxes acc) (scores acc)
                (Nat.min 20 (length (boxes acc))) 0.45) as Hcap.
  fold (selection acc) in Hcap.
  assert (Forall (fun b => length b = 4%nat) fb) as Hfb4.
  { apply Forall_forall. intros b Hb. rewrite Forall_forall in Hfour.
    apply Hfour. exact (gatherRows_elem _ _ _ Hfb b Hb). }
  destruct (drawFrom_trace COCO_CLASSES ctx fb fc fs 0 Hfb4)
    as (o & Hdraw & Hcount & _); [simpl; lia |].
  exists fb, fs, fc, w1, o. split; [exact Hrun |].
  split; [| split; lia].
  unfold drawBoundingBoxes, ctx2d.clearAll. unfold bind at 1. now rewrite Hdraw.
Qed.

Lemma detections_are_painted_witness :
  exists finalBoxes finalScores finalClasses w1 o,
    processOutput Example.single 1 1 Example.w0
      = (Ok (finalBoxes, finalScores, finalClasses), w1) /\
    drawBoundingBoxes ["person"] Example.canvas finalBoxes finalScores finalClasses w1
      = (Ok tt, ctx2d.repaint o w1) /\
    length o = (3 * length finalBoxes)%nat /\
    (length o <= 60)%nat.
Proof.
  apply (detections_are_painted ["person"] Example.canvas Example.single 1 1 Example.w0).
  apply example_wellFormed, few_proposals. simpl. lia.
Defined.

(** ** A tick whose model throws *)

Lemma tidy_Throw {A : Type} (keep : A -> list nat) (fn : M A) (w w' : world) (e : string) :
  fn w = (Throw e, w') -> tf.tidy keep fn w = (Throw e, tf.endScope (nextId w) [] w').
Proof. intros H. unfold tf.tidy. now rewrite H. Qed.

(** X10.  In the tick of the YOLO component [model.execute] is called
    outside the [tf.tidy] scope and before [tensor.dispose()].  When it
    throws, the tick ends there: the canvas keeps its content, and the
    input tensor stays alive, one tensor more than before the tick. *)
Theorem failed_execute_leaks_input (COCO_CLASSES : list string) (model : GraphModel)
  (video : Video) (ctx : Canvas) (w : world) :
  decodable video = true -> tracked w -> (forall x, run model x = None) ->
  exists w',
    detectionTick COCO_CLASSES model video ctx w = (Throw "model execution failed", w') /\
    numTensors w' = S (numTensors w) /\
    (3 + nextId w)%nat ∈ live w' /\
    overlay w' = overlay w.
Proof.
  intros Hready Htracked Hfail. unfold detectionTick.
  destruct (preprocess_run video (nth 1 (inputShape model) 0%nat)
              (nth 2 (inputShape model) 0%nat) w Hready) as [x Hpre].
  erewrite bind_Ok by exact Hpre.
  destruct (afterPreprocess_facts w Htracked) as (_ & _ & Hcount & Halive).
  exists (afterPreprocess w). split; [| now repeat split].
  apply bind_Throw. unfold tf.execute.
  erewrite bind_Ok by (apply throwIfDisposed_live; exact Halive).
  now rewrite Hfail.
Qed.

Lemma failed_execute_leaks_input_witness :
  exists w',
    detectionTick ["person"] Example.failing Example.playing Example.canvas Example.idle
      = (Throw "model execution failed", w') /\
    numTensors w' = S (numTensors Example.idle) /\
    (3 + nextId Example.idle)%nat ∈ live w' /\
    overlay w' = overlay Example.idle.
Proof.
  apply (failed_execute_leaks_input ["person"] Example.failing Example.playing
           Example.canvas Example.idle).
  - reflexivity.
  - exact idle_tracked.
  - reflexivity.
Defined.

(** X11.  The stand-alone [runDetectionLoop] calls [model.execute] inside
    the [tf.tidy] scope.  When it throws there, the scope releases every
    tensor made for the frame: the tick throws, and the tensors alive and
    the canvas are those from before the tick, whatever [processOutput] and
    [drawBoundingBoxes] are. *)
Theorem standalone_failure_releases
  (processOutput : Tensor (list Q) -> Q -> Q -> M (list (list Q) * list Q * list Z))
  (drawBoundingBoxes : Canvas -> list (list Q) -> list Q -> list Z -> list string -> M unit)
  (COCO_CLASSES : list string) (model : GraphModel) (video : Video) (canvas : Canvas)
  (w : world) :
  (3 <= readyState video)%nat -> has2d canvas = true -> tracked w ->
  (forall x, run model x = None) ->
  exists w',
    DetectionLoop.runDetectionLoop processOutput drawBoundingBoxes COCO_CLASSES
      model video canvas w = (Throw "model execution failed", w') /\
    live w' = live w /\ overlay w' = overlay w.
Proof.
  intros Hready Hctx Htracked Hfail. unfold DetectionLoop.runDetectionLoop.
  destruct (Nat.ltb_spec (readyState video) 3) as [? | _]; [lia |].
  rewrite Hctx. cbn [negb].
  eexists. split.
  - apply bind_Throw. apply tidy_Throw.
    unfold tf.fromPixels, decodable, HAVE_CURRENT_DATA.
    destruct (Nat.leb_spec 2 (readyState video)) as [_ | ?]; [| lia].
    erewrite bind_Ok by apply newTensor_run.
    unfold tf.resize, tf.opNum.
    do 3 (erewrite bind_Ok; cycle 1;
          [ erewrite bind_Ok by (apply throwIfDisposed_live; live_solver);
            apply newTensor_run | ]).
    unfold tf.execute.
    erewrite bind_Ok by (apply throwIfDisposed_live; live_solver).
    rewrite Hfail. reflexivity.
  - split; [| reflexivity].
    cbn [tf.endScope tf.allocate live nextId].
    apply set_eq. intros i. rewrite elem_of_filter.
    set_unfold. specialize (Htracked i). intuition lia.
Qed.

Lemma standalone_failure_releases_witness :
  exists w',
    DetectionLoop.runDetectionLoop RealTimeDetector.processOutput
      (fun ctx boxes scores classes names =>
         RealTimeDetector.drawBoundingBoxes names ctx boxes scores classes)
      ["person"] Example.failing Example.playing Example.canvas Example.idle
      = (Throw "model execution failed", w') /\
    live w' = live Example.idle /\ overlay w' = overlay Example.idle.
Proof.
  apply (standalone_failure_releases RealTimeDetector.processOutput
           (fun ctx boxes scores classes names =>
              RealTimeDetector.drawBoundingBoxes names ctx boxes scores classes)
           ["person"] Example.failing Example.playing Example.canvas Example.idle).
  - simpl. lia.
  - reflexivity.
  - exact idle_tracked.
  - reflexivity.
Defined.

(** ** The loop of [startLoop] in more detail *)

Section AnimationLoopDetails.

Variable COCO_CLASSES : list string.

(** Frames on which the tick returns at its guards: the loop requests the
    next frame each time and touches nothing else. *)
Lemma polling_frames (envs : list Env) (s : controller) :
  Forall (fun e => guarded COCO_CLASSES (envModel e) (envVideo e) (envCanvas e) = None)
         envs ->
  framesRequested s = 1%nat ->
  exists s',
    RealTimeDetector.steps COCO_CLASSES (map AnimationFrame envs) s = Some s' /\
    theWorld s' = theWorld s /\ framesRequested s' = 1%nat /\
    inflight s' = inflight s /\ loopStarted s' = loopStarted s /\
    length (history s') = (2 * length envs + length (history s))%nat.
Proof.
  intros Hskip. revert s. induction Hskip as [| e envs He _ IH]; intros s Hone.
  - exists s. repeat split; auto.
  - cbn [map RealTimeDetector.steps RealTimeDetector.step]. rewrite Hone.
    unfold RealTimeDetector.loop. rewrite He.
    cbn [loopStarted framesRequested inflight theWorld history].
    match goal with |- context [RealTimeDetector.steps _ _ ?s1] =>
      destruct (IH s1) as (s' & Hsteps & Hw & Hf & Hi & Hl & Hh); [reflexivity |] end.
    exists s'. split; [exact Hsteps |].
    cbn [loopStarted framesRequested inflight theWorld history length] in *.
    repeat split; try assumption. lia.
Qed.

End AnimationLoopDetails.

(** X12.  While the tick returns at its guards (model not loaded, video or
    canvas missing, [readyState] below 3, no 2D context) the loop of
    [startLoop] polls: the call of [startLoop] and every animation frame
    after it request exactly one further frame, no tick is awaited, and the
    runtime, the canvas and the console are untouched. *)
Theorem loop_polls_until_ready (COCO_CLASSES : list string) (e0 : Env) (envs : list Env)
  (w : world) :
  Forall (fun e => guarded COCO_CLASSES (envModel e) (envVideo e) (envCanvas e) = None)
         (e0 :: envs) ->
  exists s,
    RealTimeDetector.steps COCO_CLASSES (StartLoop e0 :: map AnimationFrame envs)
      (mounted w) = Some s /\
    theWorld s = w /\ framesRequested s = 1%nat /\ inflight s = [] /\
    loopStarted s = true /\
    length (history s) = (2 * S (length envs))%nat.
Proof.
  intros Hskip. apply Forall_cons in Hskip as [H0 Hskip].
  cbn [RealTimeDetector.steps RealTimeDetector.step].
  unfold RealTimeDetector.startLoop, mounted. cbn [loopStarted].
  unfold RealTimeDetector.loop. rewrite H0.
  cbn [loopStarted framesRequested inflight theWorld history].
  match goal with |- context [RealTimeDetector.steps _ _ ?s1] =>
    destruct (polling_frames COCO_CLASSES envs s1 Hskip)
      as (s & Hsteps & Hw & Hf & Hi & Hl & Hh); [reflexivity |] end.
  exists s. split; [exact Hsteps |].
  cbn [loopStarted framesRequested inflight theWorld history length] in *.
  repeat split; try assumption. lia.
Qed.

Lemma loop_polls_until_ready_witness :
  exists s,
    RealTimeDetector.steps ["person"]
      (StartLoop (RealTimeDetector.mkEnv None (Some Example.loading) (Some Example.canvas))
       :: map AnimationFrame
            [RealTimeDetector.mkEnv (Some Example.silent) (Some Example.loading)
               (Some Example.canvas);
             RealTimeDetector.mkEnv (Some Example.silent) None (Some Example.canvas)])
      (mounted Example.idle) = Some s /\
    theWorld s = Example.idle /\ framesRequested s = 1%nat /\ inflight s = [] /\
    loopStarted s = true /\
    length (history s) = (2 * S 2)%nat.
Proof.
  apply (loop_polls_until_ready ["person"]
           (RealTimeDetector.mkEnv None (Some Example.loading) (Some Example.canvas))
           [RealTimeDetector.mkEnv (Some Example.silent) (Some Example.loading)
              (Some Example.canvas);
            RealTimeDetector.mkEnv (Some Example.silent) None (Some Example.canvas)]
           Example.idle).
  repeat constructor.
Defined.

(** X13.  In the loop of [startLoop] a tick that throws ends the loop for
    good, whenever it happens: the tick that threw was the only one
    awaited, no frame is requested, and after it no event changes the
    state of the loop any more; further calls of [startLoop] do nothing
    because [loopStarted] stays set. *)
Theorem failed_tick_stops_loop (COCO_CLASSES : list string) (evs : list event)
  (w w' : world) (s : controller) (k : nat) (tick : M unit) (msg : string) :
  RealTimeDetector.steps COCO_CLASSES evs (mounted w) = Some s ->
  inflight s !! k = Some tick ->
  tick (theWorld s) = (Throw msg, w') ->
  exists s1,
    RealTimeDetector.step COCO_CLASSES (Settle k) s = Some s1 /\
    theWorld s1 = w' /\ framesRequested s1 = 0%nat /\ inflight s1 = [] /\
    loopStarted s1 = true /\
    forall evs' s', RealTimeDetector.steps COCO_CLASSES evs' s1 = Some s' -> s' = s1.
Proof.
  intros Hsteps Hk Hthrow.
  destruct (steps_sequential COCO_CLASSES evs (mounted w) s) as (Hidle & Hone & _);
    [repeat split; simpl; auto | exact Hsteps |].
  pose proof (lookup_lt_Some _ _ _ Hk) as Hlt.
  assert (length (delete k (inflight s)) = 0%nat /\ framesRequested s = 0%nat) as [Hd Hf].
  { rewrite length_delete by (exists tick; exact Hk). unfold M in *. lia. }
  apply length_zero_iff_nil in Hd.
  assert (loopStarted s = true) as Hs.
  { destruct (loopStarted s) eqn:Hs; [reflexivity |].
    destruct (Hidle eq_refl) as [Hi _]. rewrite Hi in Hk. discriminate. }
  eexists. split.
  { cbn [RealTimeDetector.step]. unfold M in *. rewrite Hk, Hthrow. reflexivity. }
  cbn [theWorld framesRequested inflight loopStarted].
  split; [reflexivity |]. split; [exact Hf |]. split; [exact Hd |]. split; [exact Hs |].
  apply stopped_forever; assumption.
Qed.

Lemma failed_tick_stops_loop_witness :
  exists s1,
    RealTimeDetector.step ["person"] (Settle 0)
      (RealTimeDetector.startLoop ["person"] (Example.yoloEnv Example.failing)
         (mounted Example.idle)) = Some s1 /\
    theWorld s1 = afterPreprocess Example.idle /\
    framesRequested s1 = 0%nat /\ inflight s1 = [] /\ loopStarted s1 = true /\
    forall evs' s', RealTimeDetector.steps ["person"] evs' s1 = Some s' -> s' = s1.
Proof.
  apply (failed_tick_stops_loop ["person"] [StartLoop (Example.yoloEnv Example.failing)]
           Example.idle (afterPreprocess Example.idle)
           (RealTimeDetector.startLoop ["person"] (Example.yoloEnv Example.failing)
              (mounted Example.idle))
           0
           (detectionTick ["person"] Example.failing Example.playing Example.canvas)
           "model execution failed").
  - reflexivity.
  - reflexivity.
  - vm_compute. reflexivity.
Defined.

(** ** What [drawDetection] paints *)

Lemma drawDetection_trace (detections : list CocoApp.DetectedObject) :
  Forall (fun d => length (CocoApp.bbox d) = 4%nat) detections ->
  exists o,
    (forall w, CocoApp.drawDetection detections w
               = (Ok tt, ctx2d.repaint (overlay w ++ o) w)) /\
    length o = (2 * length detections)%nat /\
    forall k d x y bw bh,
      detections !! k = Some d -> CocoApp.bbox d = [x; y; bw; bh] ->
      exists labelY,
        5 < labelY /\
        o !! (2 * k)%nat = Some (StrokeRect x y bw bh) /\
        o !! (2 * k + 1)%nat
          = Some (FillText (Some (CocoApp.class d)) (CocoApp.score d) x labelY).
Proof.
  induction 1 as [| d0 rest Hd0 _ IH].
  - exists []. split; [intros w; symmetry; simpl; f_equal; apply repaint_same |].
    split; [reflexivity |]. intros k d x y bw bh Hk. discriminate Hk.
  - destruct IH as (o' & Hrun & Hcount & Hcmds).
    destruct (CocoApp.bbox d0) as [| x0 [| y0 [| bw0 [| bh0 [| ? ?]]]]] eqn:Hbox;
      try discriminate Hd0.
    set (labelY0 := if JS.ltb 10 y0 then y0 - 5 else 10).
    exists ([StrokeRect x0 y0 bw0 bh0;
             FillText (Some (CocoApp.class d0)) (CocoApp.score d0) x0 labelY0] ++ o').
    split; [| split].
    + intros w. cbn [CocoApp.drawDetection]. unfold CocoApp.drawPrediction.
      rewrite Hbox. unfold ctx2d.strokeRect, ctx2d.fillText, ctx2d.paint.
      unfold bind at 1. unfold bind at 1.
      rewrite Hrun. cbn [ctx2d.repaint overlay nextId live oplog console shown].
      unfold ctx2d.repaint. do 2 f_equal.
      now rewrite <- !app_assoc.
    + cbn [length app]. rewrite Hcount. lia.
    + intros k d x y bw bh Hk Hb. destruct k as [| k].
      * injection Hk as <-. rewrite Hbox in Hb. injection Hb as <- <- <- <-.
        exists labelY0. split; [| split; reflexivity].
        subst labelY0. destruct (JS.ltb 10 y0) eqn:E.
        -- apply ltb_lt in E. lra.
        -- lra.
      * cbn [lookup list_lookup] in Hk.
        destruct (Hcmds k d x y bw bh Hk Hb) as (labelY & Hpos & H0 & H1).
        exists labelY. split; [exact Hpos |].
        replace (2 * S k)%nat with (S (S (2 * k))) by lia.
        cbn [app Nat.add]. split; assumption.
Qed.

(** X14.  [drawDetection] adds two commands for every detected object, the
    frame of its box where coco-ssd found it (not mirrored) and its label
    at the left end of the frame; the baseline of the label is always more
    than 5 below the upper edge of the canvas.  It never throws and
    changes nothing but the canvas. *)
Theorem drawDetection_paints (detections : list CocoApp.DetectedObject) (w : world) :
  Forall (fun d => length (CocoApp.bbox d) = 4%nat) detections ->
  exists o,
    CocoApp.drawDetection detections w = (Ok tt, ctx2d.repaint (overlay w ++ o) w) /\
    length o = (2 * length detections)%nat /\
    forall k d x y bw bh,
      detections !! k = Some d -> CocoApp.bbox d = [x; y; bw; bh] ->
      exists labelY,
        5 < labelY /\
        o !! (2 * k)%nat = Some (StrokeRect x y bw bh) /\
        o !! (2 * k + 1)%nat
          = Some (FillText (Some (CocoApp.class d)) (CocoApp.score d) x labelY).
Proof.
  intros Hfour. destruct (drawDetection_trace detections Hfour) as (o & Hrun & Hrest).
  exists o. split; [apply Hrun | exact Hrest].
Qed.

Lemma drawDetection_paints_witness :
  exists o,
    CocoApp.drawDetection [Example.person] Example.idle
      = (Ok tt, ctx2d.repaint (overlay Example.idle ++ o) Example.idle) /\
    length o = (2 * length [Example.person])%nat /\
    forall k d x y bw bh,
      [Example.person] !! k = Some d -> CocoApp.bbox d = [x; y; bw; bh] ->
      exists labelY,
        5 < labelY /\
        o !! (2 * k)%nat = Some (StrokeRect x y bw bh) /\
        o !! (2 * k + 1)%nat
          = Some (FillText (Some (CocoApp.class d)) (CocoApp.score d) x labelY).
Proof.
  apply (drawDetection_paints [Example.person] Example.idle).
  repeat constructor.
Defined.

(** ** The timer loop of the coco-ssd component in more detail *)

Lemma coco_guard_ready (model : CocoApp.ObjectDetection) (video : Video)
  (canvas : option Canvas) :
  readyState video = 4%nat ->
  CocoApp.guarded (Some model) (Some video) canvas
  = Some (predictions <- CocoApp.awaitDetect model video ;;
          CocoApp.render canvas predictions).
Proof. intros H. unfold CocoApp.guarded. now rewrite H. Qed.

Lemma detectTick_paints (model : CocoApp.ObjectDetection) (video : Video) (canvas : Canvas)
  (predictions : list CocoApp.DetectedObject) (w : world) :
  CocoApp.detect model (currentFrame video) = Some predictions ->
  has2d canvas = true ->
  (predictions <- CocoApp.awaitDetect model video ;;
   CocoApp.render (Some canvas) predictions) w
  = CocoApp.drawDetection predictions (ctx2d.repaint [] (CocoApp.called w)).
Proof.
  intros Hfound Hctx. unfold bind at 1, CocoApp.awaitDetect. rewrite Hfound.
  unfold CocoApp.render. rewrite Hctx. reflexivity.
Qed.



(** X16.  Ticks of the timer loop can end in another order than they
    started, and the canvas shows the tick that ended last: when two ticks
    wait for [model.detect] and the later one is answered first, the
    canvas ends up with the detections of the earlier frame. *)
Theorem older_frame_painted_last (w : world) (model1 model2 : CocoApp.ObjectDetection)
  (video1 video2 : Video) (canvas : Canvas)
  (predictions1 predictions2 : list CocoApp.DetectedObject) :
  readyState video1 = 4%nat -> readyState video2 = 4%nat ->
  CocoApp.detect model1 (currentFrame video1) = Some predictions1 ->
  CocoApp.detect model2 (currentFrame video2) = Some predictions2 ->
  has2d canvas = true ->
  Forall (fun d => length (CocoApp.bbox d) = 4%nat) predictions1 ->
  exists s',
    CocoApp.steps
      [CocoApp.SetInterval;
       CocoApp.Timer (CocoApp.mkEnv (Some model1) (Some video1) (Some canvas));
       CocoApp.Timer (CocoApp.mkEnv (Some model2) (Some video2) (Some canvas));
       CocoApp.Settle 1; CocoApp.Settle 0] (CocoApp.mounted w) = Some s' /\
    CocoApp.inflight s' = [] /\
    overlay (CocoApp.theWorld s')
      = overlay (snd (CocoApp.drawDetection predictions1 (ctx2d.repaint [] w))).
Proof.
  intros Hready1 Hready2 Hfound1 Hfound2 Hctx Hfour. eexists. split.
  { cbn [CocoApp.steps CocoApp.step CocoApp.envModel CocoApp.envVideo CocoApp.envCanvas
         CocoApp.mounted CocoApp.timerOn CocoApp.inflight CocoApp.theWorld].
    rewrite (coco_guard_ready _ _ _ Hready1).
    cbn [CocoApp.steps CocoApp.step CocoApp.envModel CocoApp.envVideo CocoApp.envCanvas
         CocoApp.timerOn CocoApp.inflight CocoApp.theWorld app].
    rewrite (coco_guard_ready _ _ _ Hready2).
    reflexivity. }
  cbn [CocoApp.inflight CocoApp.theWorld]. split; [reflexivity |].
  rewrite (detectTick_paints _ _ _ _ _ Hfound2 Hctx).
  rewrite (detectTick_paints _ _ _ _ _ Hfound1 Hctx).
  destruct (drawDetection_trace predictions1 Hfour) as (o & Hrun & _).
  now rewrite !Hrun.
Qed.

Lemma older_frame_painted_last_witness :
  exists s',
    CocoApp.steps
      [CocoApp.SetInterval;
       CocoApp.Timer (Example.cocoEnv Example.finding);
       CocoApp.Timer (CocoApp.mkEnv (Some (CocoApp.mkObjectDetection (fun _ => Some [])))
                        (Some Example.playing) (Some Example.canvas));
       CocoApp.Settle 1; CocoApp.Settle 0] (CocoApp.mounted Example.idle) = Some s' /\
    CocoApp.inflight s' = [] /\
    overlay (CocoApp.theWorld s')
      = overlay (snd (CocoApp.drawDetection [Example.person]
                        (ctx2d.repaint [] Example.idle))).
Proof.
  apply (older_frame_painted_last Example.idle Example.finding
           (CocoApp.mkObjectDetection (fun _ => Some []))
           Example.playing Example.playing Example.canvas [Example.person] []);
    try reflexivity.
  repeat constructor.
Defined.

(** X17.  [detectObjects] asks for the canvas only after [model.detect]
    has answered: without a canvas, or without a 2D context, the detector
    still runs on the frame and its result is dropped; nothing is
    painted. *)
Theorem detect_runs_without_canvas (model : CocoApp.ObjectDetection) (video : Video)
  (canvasRef : option Canvas) (predictions : list CocoApp.DetectedObject) (w : world) :
  readyState video = 4%nat ->
  CocoApp.detect model (currentFrame video) = Some predictions ->
  (forall canvas, canvasRef = Some canvas -> has2d canvas = false) ->
  CocoApp.detectObjects (Some model) (Some video) canvasRef w
  = (Ok tt, CocoApp.called w).
Proof.
  intros Hready Hfound Hnone. unfold CocoApp.detectObjects.
  rewrite (coco_guard_ready _ _ _ Hready).
  unfold bind, CocoApp.awaitDetect. rewrite Hfound. unfold CocoApp.render.
  destruct canvasRef as [canvas |]; [| reflexivity].
  now rewrite (Hnone canvas eq_refl).
Qed.

Lemma detect_runs_without_canvas_witness :
  CocoApp.detectObjects (Some Example.finding) (Some Example.playing) None Example.idle
  = (Ok tt, CocoApp.called Example.idle).
Proof.
  apply (detect_runs_without_canvas Example.finding Example.playing None [Example.person]
           Example.idle).
  - reflexivity.
  - reflexivity.
  - intros canvas H. discriminate H.
Defined.

(** ** [predict] in every case *)

Lemma endScope_restores (w w1 : world) :
  tracked w ->
  (forall i, i ∈ live w -> i ∈ live w1) ->
  (forall i, i ∈ live w1 -> i ∈ live w \/ (nextId w <= i)%nat) ->
  live (tf.endScope (nextId w) [] w1) = live w.
Proof.
  intros Htracked Hsub Hnew. cbn [tf.endScope live].
  apply set_eq. intros i. rewrite elem_of_filter. split.
  - intros [[Hlt | Hin] Hi]; [| now apply elem_of_nil in Hin].
    destruct (Hnew i Hi) as [? | ?]; [assumption | lia].
  - intros Hi. split; [left; now apply Htracked | now apply Hsub].
Qed.

(** On a frame that can be decoded [predict] returns, whatever the two
    models do. *)
Lemma predict_trace (IMAGENET_CLASSES : list string) (model : GraphModel)
  (intermediateModel : option GraphModel) (video : Video) (w : world) :
  decodable video = true ->
  Classifier.predict IMAGENET_CLASSES (Some model) intermediateModel (Some video) w
  = (Ok tt, afterPredict IMAGENET_CLASSES model video w).
Proof.
  intros Hready. unfold Classifier.predict, afterPredict.
  destruct (run model (normalized video)) as [probabilities |] eqn:Hrun.
  - erewrite bind_Ok; cycle 1.
    { apply tidy_Ok.
      unfold tf.fromPixels. rewrite Hready.
      erewrite bind_Ok by apply newTensor_run.
      unfold tf.resize, tf.op1, tf.opNum.
      do 5 (erewrite bind_Ok; cycle 1;
            [ erewrite bind_Ok by (apply throwIfDisposed_live; live_solver);
              apply newTensor_run | ]).
      erewrite bind_Ok; cycle 1.
      { apply attempt_run. unfold Classifier.processPredictions_start, tf.execute.
        erewrite bind_Ok; cycle 1.
        { erewrite bind_Ok by (apply throwIfDisposed_live; live_solver).
          cbn [tval]. fold (normalized video). rewrite Hrun. apply newTensor_run. }
        apply read_live. live_solver. }
      reflexivity. }
    cbn [snd fst tval].
    unfold Classifier.processPredictions_resume, Classifier.setPredictions.
    destruct intermediateModel as [intermediate |].
    + erewrite bind_Ok; [reflexivity |].
      apply attempt_run. unfold bind at 1.
      apply bind_Throw. unfold tf.execute. apply bind_Throw.
      apply throwIfDisposed_gone.
      cbn [tid Classifier.display tf.endScope tf.allocate live nextId].
      rewrite elem_of_filter. intros [[Hlt | Hin] _]; [lia | now apply elem_of_nil in Hin].
    + reflexivity.
  - erewrite bind_Ok; cycle 1.
    { apply tidy_Ok.
      unfold tf.fromPixels. rewrite Hready.
      erewrite bind_Ok by apply newTensor_run.
      unfold tf.resize, tf.op1, tf.opNum.
      do 5 (erewrite bind_Ok; cycle 1;
            [ erewrite bind_Ok by (apply throwIfDisposed_live; live_solver);
              apply newTensor_run | ]).
      erewrite bind_Ok; cycle 1.
      { apply attempt_run. unfold Classifier.processPredictions_start, tf.execute.
        apply bind_Throw.
        erewrite bind_Ok by (apply throwIfDisposed_live; live_solver).
        cbn [tval]. fold (normalized video). rewrite Hrun. reflexivity. }
      reflexivity. }
    reflexivity.
Qed.

Lemma afterPredict_facts (IMAGENET_CLASSES : list string) (model : GraphModel)
  (video : Video) (w : world) :
  tracked w ->
  let w' := afterPredict IMAGENET_CLASSES model video w in
  live w' = live w /\ console w' = console w /\ overlay w' = overlay w.
Proof.
  intros Htracked. unfold afterPredict, afterNormalize.
  destruct (run model (normalized video)) as [probabilities |]; cbn zeta;
    (split; [| split; reflexivity]).
  - cbn [Classifier.display live].
    apply endScope_restores; [exact Htracked | |]; intros i Hi.
    + live_solver.
    + revert Hi. live_solver.
  - apply endScope_restores; [exact Htracked | |]; intros i Hi.
    + live_solver.
    + revert Hi. live_solver.
Qed.

(** X18.  On a frame that can be decoded [predict] always returns, even
    when [model.predict] throws, and it never leaves a tensor behind: the
    tensors alive, the console and the canvas are those from before the
    call.  When the model answers, its top three classes are shown and
    [model.predict] has run exactly once: the intermediate model, if there
    is one, is called on a tensor that is disposed by then, so it computes
    nothing and nothing is logged.  When the model throws, what is shown
    stays. *)
Theorem predict_releases_everything (IMAGENET_CLASSES : list string) (model : GraphModel)
  (intermediateModel : option GraphModel) (video : Video) (w : world) :
  tracked w -> decodable video = true ->
  exists w',
    Classifier.predict IMAGENET_CLASSES (Some model) intermediateModel (Some video) w
      = (Ok tt, w') /\
    live w' = live w /\ console w' = console w /\ overlay w' = overlay w /\
    match run model (normalized video) with
    | Some probabilities =>
        shown w' = Classifier.topK IMAGENET_CLASSES probabilities /\
        oplog w' = oplog w ++ [OpFromPixels; OpResizeNearestNeighbor; OpToFloat;
                               OpExpandDims; OpDiv; OpSub; OpPredict]
    | None =>
        shown w' = shown w /\
        oplog w' = oplog w ++ [OpFromPixels; OpResizeNearestNeighbor; OpToFloat;
                               OpExpandDims; OpDiv; OpSub]
    end.
Proof.
  intros Htracked Hready.
  exists (afterPredict IMAGENET_CLASSES model video w).
  split; [now apply predict_trace |].
  destruct (afterPredict_facts IMAGENET_CLASSES model video w Htracked)
    as (Hlive & Hconsole & Hoverlay).
  split; [exact Hlive |]. split; [exact Hconsole |]. split; [exact Hoverlay |].
  unfold afterPredict, afterNormalize.
  destruct (run model (normalized video)) as [probabilities |];
    (split; [reflexivity |]);
    cbn [Classifier.display tf.endScope tf.allocate oplog];
    now rewrite <- !app_assoc.
Qed.

Lemma predict_releases_everything_witness :
  exists w',
    Classifier.predict ["cat"; "dog"]
      (Some (mkGraphModel [1; 224; 224; 3]%nat (fun _ => Some [0.1; 0.7; 0.2])))
      (Some Example.silent) (Some Example.playing) Example.idle
      = (Ok tt, w') /\
    live w' = live Example.idle /\ console w' = console Example.idle /\
    overlay w' = overlay Example.idle /\
    shown w' = Classifier.topK ["cat"; "dog"] [0.1; 0.7; 0.2] /\
    oplog w' = oplog Example.idle ++ [OpFromPixels; OpResizeNearestNeighbor; OpToFloat;
                                      OpExpandDims; OpDiv; OpSub; OpPredict].
Proof.
  apply (predict_releases_everything ["cat"; "dog"]
           (mkGraphModel [1; 224; 224; 3]%nat (fun _ => Some [0.1; 0.7; 0.2]))
           (Some Example.silent) Example.playing Example.idle).
  - exact idle_tracked.
  - reflexivity.
Defined.

(** X19.  The callback of the 500 ms timer never throws and never leaves a
    tensor behind, whatever the models do; unless the model is loaded and
    the video has [readyState] 4 it does nothing at all. *)
Theorem onInterval_is_safe (IMAGENET_CLASSES : list string)
  (model intermediateModel : option GraphModel) (video : option Video) (w : world) :
  tracked w ->
  exists w',
    Classifier.onInterval IMAGENET_CLASSES model intermediateModel video w = (Ok tt, w') /\
    live w' = live w /\ console w' = console w /\
    ((forall m v, model = Some m -> video = Some v -> readyState v <> 4%nat) -> w' = w).
Proof.
  intros Htracked. unfold Classifier.onInterval.
  destruct model as [m |]; [| exists w; now repeat split].
  destruct video as [v |]; [| exists w; now repeat split].
  destruct (Nat.eqb_spec (readyState v) 4) as [Hfour | Hother];
    [| exists w; now repeat split].
  assert (decodable v = true) as Hready.
  { unfold decodable, HAVE_CURRENT_DATA. now rewrite Hfour. }
  exists (afterPredict IMAGENET_CLASSES m v w).
  destruct (afterPredict_facts IMAGENET_CLASSES m v w Htracked) as (Hlive & Hconsole & _).
  split; [| split; [exact Hlive | split; [exact Hconsole |]]].
  - erewrite bind_Ok; [reflexivity |].
    apply attempt_run. now apply predict_trace.
  - intros Hnever. now destruct (Hnever m v eq_refl eq_refl).
Qed.

Lemma onInterval_is_safe_witness :
  exists w',
    Classifier.onInterval ["cat"] (Some Example.failing) (Some Example.failing)
      (Some Example.playing) Example.idle = (Ok tt, w') /\
    live w' = live Example.idle /\ console w' = console Example.idle /\
    ((forall m v, Some Example.failing = Some m -> Some Example.playing = Some v ->
                  readyState v <> 4%nat) -> w' = Example.idle).
Proof.
  apply (onInterval_is_safe ["cat"] (Some Example.failing) (Some Example.failing)
           (Some Example.playing) Example.idle).
  exact idle_tracked.
Defined.

(** ** The names of the classes *)



(** ** [executeInference] in every case *)

(** Once the first half of the model has answered, [executeInference]
    makes nine tensors and calls the second half on the dummy image and the
    tensor of the cut. *)
Lemma executeInference_trace (model : SplitInference.SplitModel) (inputTensor : Tensor sym)
  (middle : sym) (w : world) :
  tid inputTensor ∈ live w ->
  SplitInference.upToSplit model (tval inputTensor) = Some middle ->
  SplitInference.executeInference model inputTensor w
  = match SplitInference.fromSplit model (SOp0 OpZeros) middle with
    | Some v => (Ok (mkTensor (9 + nextId w) v), afterInference (tid inputTensor) w)
    | None => (Throw "model execution failed", beforeSecondHalf w)
    end.
Proof.
  intros Hlive Hmiddle. unfold SplitInference.executeInference.
  erewrite bind_Ok; cycle 1.
  { unfold SplitInference.executeUpTo.
    erewrite bind_Ok by (now apply throwIfDisposed_live).
    rewrite Hmiddle. apply newTensor_run. }
  unfold tf.op1, tf.op2, tf.opNum.
  do 5 (erewrite bind_Ok; cycle 1;
        [ repeat (erewrite bind_Ok by (apply throwIfDisposed_live; live_solver));
          apply newTensor_run | ]).
  erewrite bind_Ok by (apply read_live; live_solver).
  erewrite bind_Ok by apply newTensor_run.
  erewrite bind_Ok; cycle 1.
  { repeat (erewrite bind_Ok by (apply throwIfDisposed_live; live_solver)).
    apply newTensor_run. }
  erewrite bind_Ok by apply newTensor_run.
  destruct (SplitInference.fromSplit model (SOp0 OpZeros) middle) as [v |] eqn:Hv.
  - erewrite bind_Ok; cycle 1.
    { unfold SplitInference.executeFrom.
      repeat (erewrite bind_Ok by (apply throwIfDisposed_live; live_solver)).
      cbn [tval]. rewrite Hv. apply newTensor_run. }
    reflexivity.
  - apply bind_Throw. unfold SplitInference.executeFrom.
    repeat (erewrite bind_Ok by (apply throwIfDisposed_live; live_solver)).
    cbn [tval]. rewrite Hv. reflexivity.
Qed.

Lemma w0_tracked : tracked Example.w0.
Proof.
  intros i Hi. unfold Example.w0 in *. cbn [live nextId] in *.
  apply elem_of_singleton in Hi. lia.
Qed.

(** X21.  When the input tensor is disposed, or the first half of the
    model throws, [executeInference] throws at its first line: no tensor
    is made and none is disposed, the input tensor included. *)
Theorem executeInference_first_half_fails (model : SplitInference.SplitModel)
  (inputTensor : Tensor sym) (w : world) :
  (tid inputTensor ∉ live w) \/ SplitInference.upToSplit model (tval inputTensor) = None ->
  exists msg, SplitInference.executeInference model inputTensor w = (Throw msg, w).
Proof.
  intros Hbad. unfold SplitInference.executeInference.
  destruct (decide (tid inputTensor ∈ live w)) as [Hlive | Hgone].
  - destruct Hbad as [Hgone | Hnone]; [contradiction |].
    eexists. apply bind_Throw. unfold SplitInference.executeUpTo.
    erewrite bind_Ok by (now apply throwIfDisposed_live).
    rewrite Hnone. reflexivity.
  - eexists. apply bind_Throw. unfold SplitInference.executeUpTo.
    apply bind_Throw. now apply throwIfDisposed_gone.
Qed.

Lemma executeInference_first_half_fails_witness :
  exists msg,
    SplitInference.executeInference Example.echo (mkTensor 7 (SFrame Example.blank))
      Example.idle = (Throw msg, Example.idle).
Proof.
  apply (executeInference_first_half_fails Example.echo (mkTensor 7 (SFrame Example.blank))
           Example.idle).
  left. cbn [tid Example.idle live]. apply not_elem_of_empty.
Defined.

(** X22.  When the second half of the model throws, [executeInference]
    never reaches its [tf.dispose]: the nine tensors it has made by then
    and the input tensor all stay alive. *)
Theorem executeInference_second_half_fails (model : SplitInference.SplitModel)
  (inputTensor : Tensor sym) (middle : sym) (w : world) :
  tracked w -> tid inputTensor ∈ live w ->
  SplitInference.upToSplit model (tval inputTensor) = Some middle ->
  SplitInference.fromSplit model (SOp0 OpZeros) middle = None ->
  exists w',
    SplitInference.executeInference model inputTensor w
      = (Throw "model execution failed", w') /\
    numTensors w' = (numTensors w + 9)%nat /\
    tid inputTensor ∈ live w'.
Proof.
  intros Htracked Hlive Hmiddle Hnone. exists (beforeSecondHalf w).
  rewrite (executeInference_trace model inputTensor middle w Hlive Hmiddle), Hnone.
  split; [reflexivity |]. unfold beforeSecondHalf. split.
  - count_tensors. lia.
  - live_solver.
Qed.

Lemma executeInference_second_half_fails_witness :
  exists w',
    SplitInference.executeInference
      (SplitInference.mkSplitModel [1; 640; 640; 3]%nat (fun x => Some x) (fun _ _ => None))
      (mkTensor 0 (SFrame Example.blank)) Example.w0
      = (Throw "model execution failed", w') /\
    numTensors w' = (numTensors Example.w0 + 9)%nat /\
    tid (mkTensor 0 (SFrame Example.blank)) ∈ live w'.
Proof.
  apply (executeInference_second_half_fails
           (SplitInference.mkSplitModel [1; 640; 640; 3]%nat (fun x => Some x)
              (fun _ _ => None))
           (mkTensor 0 (SFrame Example.blank)) (SFrame Example.blank) Example.w0).
  - exact w0_tracked.
  - cbn [tid Example.w0 live]. now apply elem_of_singleton.
  - reflexivity.
  - reflexivity.
Defined.

Lemma released_is_gone (i : nat) (w : world) : i ∉ live (tf.release i w).
Proof.
  cbn [tf.release live]. intros Hin. apply elem_of_difference in Hin as [_ Hin].
  apply Hin. now apply elem_of_singleton.
Qed.

Lemma release_keeps_gone (i j : nat) (w : world) :
  i ∉ live w -> i ∉ live (tf.release j w).
Proof.
  cbn [tf.release live]. intros Hgone Hin.
  apply elem_of_difference in Hin as [Hin _]. now apply Hgone.
Qed.

(** X23.  The predictions [executeInference] returns are those of the
    second half of the model on the dummy image and the tensor of the cut
    as the first half made it: the quantised and the restored tensor are
    computed but not used.  The call disposes the tensor it was given, so
    a second call on the same tensor throws and changes nothing. *)
Theorem executeInference_result (model : SplitInference.SplitModel)
  (inputTensor : Tensor sym) (middle v : sym) (w : world) :
  tracked w -> tid inputTensor ∈ live w ->
  SplitInference.upToSplit model (tval inputTensor) = Some middle ->
  SplitInference.fromSplit model (SOp0 OpZeros) middle = Some v ->
  exists predictions w',
    SplitInference.executeInference model inputTensor w = (Ok predictions, w') /\
    tval predictions = v /\
    tid predictions ∈ live w' /\
    (tid inputTensor ∉ live w') /\
    SplitInference.executeInference model inputTensor w'
      = (Throw "Tensor is disposed.", w').
Proof.
  intros Htracked Hlive Hmiddle Hv.
  exists (mkTensor (9 + nextId w) v), (afterInference (tid inputTensor) w).
  rewrite (executeInference_trace model inputTensor middle w Hlive Hmiddle), Hv.
  pose proof (Htracked _ Hlive) as Hlt.
  assert (tid inputTensor ∉ live (afterInference (tid inputTensor) w)) as Hgone.
  { unfold afterInference. cbn zeta.
    do 6 apply release_keeps_gone. apply released_is_gone. }
  split; [reflexivity |]. split; [reflexivity |]. split; [| split; [exact Hgone |]].
  - now destruct (afterInference_count (tid inputTensor) w Htracked Hlive) as (_ & _ & ?).
  - unfold SplitInference.executeInference. apply bind_Throw.
    unfold SplitInference.executeUpTo. apply bind_Throw.
    now apply throwIfDisposed_gone.
Qed.

Lemma executeInference_result_witness :
  exists predictions w',
    SplitInference.executeInference Example.echo (mkTensor 0 (SFrame Example.blank))
      Example.w0 = (Ok predictions, w') /\
    tval predictions = SFrame Example.blank /\
    tid predictions ∈ live w' /\
    (tid (mkTensor 0 (SFrame Example.blank)) ∉ live w') /\
    SplitInference.executeInference Example.echo (mkTensor 0 (SFrame Example.blank)) w'
      = (Throw "Tensor is disposed.", w').
Proof.
  apply (executeInference_result Example.echo (mkTensor 0 (SFrame Example.blank))
           (SFrame Example.blank) (SFrame Example.blank) Example.w0).
  - exact w0_tracked.
  - cbn [tid Example.w0 live]. now apply elem_of_singleton.
  - reflexivity.
  - reflexivity.
Defined.

(** ** Tensors that accumulate over the ticks of the YOLO component *)

Lemma silent_wellShaped : wellShaped Example.silent.
Proof.
  intros x. exists (tval Example.quiet). split; [reflexivity |].
  apply (example_wellFormed []). apply few_proposals. simpl. lia.
Qed.

(** X24.  The tick of the YOLO component leaves behind what
    [processOutput] leaves behind, and nothing else: after any number of
    ticks that run one after the other, between one and five tensors per
    tick have been added to those alive before. *)
Theorem detection_ticks_accumulate (COCO_CLASSES : list string) (model : GraphModel)
  (videos : list Video) (ctx : Canvas) (w : world) :
  wellShaped model -> Forall (fun v => decodable v = true) videos -> tracked w ->
  exists w',
    inSequence (map (fun v => detectionTick COCO_CLASSES model v ctx) videos) w
      = (Ok tt, w') /\
    tracked w' /\
    (numTensors w + length videos <= numTensors w')%nat /\
    (numTensors w' <= numTensors w + 5 * length videos)%nat.
Proof.
  intros Hmodel Hready. revert w.
  induction Hready as [| v videos Hv _ IH]; intros w Htracked; simpl.
  - exists w. split; [reflexivity |]. split; [exact Htracked | lia].
  - destruct (detectionTick_run COCO_CLASSES model v ctx w Hmodel Hv Htracked)
      as (w1 & Hrun & Htracked1 & Hc1).
    destruct (IH w1 Htracked1) as (w' & Hrest & Htracked' & Hlow & Hhigh).
    exists w'. split; [now rewrite (bind_Ok _ _ _ _ _ Hrun) |].
    split; [exact Htracked' | lia].
Qed.

Lemma detection_ticks_accumulate_witness :
  exists w',
    inSequence (map (fun v => detectionTick ["person"] Example.silent v Example.canvas)
                    [Example.playing; Example.playing]) Example.idle
      = (Ok tt, w') /\
    tracked w' /\
    (numTensors Example.idle + length [Example.playing; Example.playing]
     <= numTensors w')%nat /\
    (numTensors w'
     <= numTensors Example.idle + 5 * length [Example.playing; Example.playing])%nat.
Proof.
  apply (detection_ticks_accumulate ["person"] Example.silent
           [Example.playing; Example.playing] Example.canvas Example.idle).
  - exact silent_wellShaped.
  - repeat constructor.
  - exact idle_tracked.
Defined.

(** ** Proposals are filtered one by one *)

Lemma pushProposal_from (widthRatio heightRatio : Q) (acc : arrays) (proposal : list Q) :
  let pushed := pushProposal widthRatio heightRatio (mkArrays [] [] []) proposal in
  pushProposal widthRatio heightRatio acc proposal
  = mkArrays (boxes acc ++ boxes pushed) (scores acc ++ scores pushed)
             (classes acc ++ classes pushed).
Proof.
  unfold pushProposal.
  destruct proposal as [| cx [| cy [| bw [| bh classScores]]]];
    cbn zeta; cbn [boxes scores classes]; rewrite ?app_nil_r; try (now destruct acc).
  destruct (scanScores classScores 0 (-1) (-1)) as [maxScore classId].
  destruct (JS.ltb confidenceThreshold maxScore); cbn [boxes scores classes app].
  - reflexivity.
  - rewrite !app_nil_r. now destruct acc.
Qed.

Lemma collect_from (widthRatio heightRatio : Q) (proposals : list (list Q)) (acc : arrays) :
  let rest := collect widthRatio heightRatio proposals in
  fold_left (pushProposal widthRatio heightRatio) proposals acc
  = mkArrays (boxes acc ++ boxes rest) (scores acc ++ scores rest)
             (classes acc ++ classes rest).
Proof.
  unfold collect. revert acc.
  induction proposals as [| p proposals IH]; intros acc; cbn [fold_left].
  - cbn [boxes scores classes]. rewrite !app_nil_r. now destruct acc.
  - rewrite IH, (IH (pushProposal _ _ (mkArrays [] [] []) p)).
    rewrite (pushProposal_from widthRatio heightRatio acc p).
    cbn [boxes scores classes]. now rewrite <- !app_assoc.
Qed.

(** X25.  The proposals are filtered one by one and in their order: the
    arrays filled from two lists of proposals, one after the other, are the
    arrays of the first list followed by those of the second. *)
Theorem collect_app (widthRatio heightRatio : Q) (first second : list (list Q)) :
  let a := collect widthRatio heightRatio first in
  let b := collect widthRatio heightRatio second in
  let ab := collect widthRatio heightRatio (first ++ second) in
  boxes ab = boxes a ++ boxes b /\
  scores ab = scores a ++ scores b /\
  classes ab = classes a ++ classes b.
Proof.
  cbn zeta. unfold collect at 1 4 7. rewrite fold_left_app.
  fold (collect widthRatio heightRatio first).
  rewrite collect_from. cbn zeta. now repeat split.
Qed.

(** ** The loop of [startLoop] with a model that does not fail *)

Section LoopKeepsGoing.

Variable COCO_CLASSES : list string.

Lemma guarded_completes (e : Env) (tick : M unit) :
  (forall m, envModel e = Some m -> wellShaped m) ->
  guarded COCO_CLASSES (envModel e) (envVideo e) (envCanvas e) = Some tick ->
  completes tick.
Proof.
  intros Hmodel. unfold guarded.
  destruct (envModel e) as [m |]; [| discriminate].
  destruct (envVideo e) as [v |]; [| discriminate].
  destruct (envCanvas e) as [c |]; [| discriminate].
  destruct (Nat.ltb_spec (readyState v) 3) as [? | Hready]; [discriminate |].
  destruct (has2d c); [| discriminate].
  intros [= <-] w Htracked.
  destruct (detectionTick_run COCO_CLASSES m v c w (Hmodel m eq_refl)) as (w' & Hrun & Ht & _).
  - unfold decodable, HAVE_CURRENT_DATA. apply Nat.leb_le. lia.
  - exact Htracked.
  - now exists w'.
Qed.

Lemma loop_running (e : Env) (w : world) (h : list mark) :
  (forall m, envModel e = Some m -> wellShaped m) ->
  tracked w -> Forall (fun m => m <> Failed) h ->
  running (RealTimeDetector.loop COCO_CLASSES e (mkController true 0 [] w h)).
Proof.
  intros Hmodel Htracked Hh. unfold RealTimeDetector.loop.
  destruct (guarded COCO_CLASSES (envModel e) (envVideo e) (envCanvas e))
    as [tick |] eqn:Hguard; unfold running;
    cbn [theWorld inflight loopStarted framesRequested history app length].
  - split; [exact Htracked |]. split; [| split; [reflexivity |]].
    + repeat constructor. exact (guarded_completes e tick Hmodel Hguard).
    + constructor; [discriminate | exact Hh].
  - split; [exact Htracked |]. split; [constructor | split; [reflexivity |]].
    repeat (constructor; [discriminate |]). exact Hh.
Qed.

Lemma step_running (ev : event) (s s' : controller) :
  wellShapedEvent ev -> running s ->
  RealTimeDetector.step COCO_CLASSES ev s = Some s' -> running s'.
Proof.
  intros Hev (Htracked & Hticks & Hone & Hh) Hstep.
  destruct ev as [e | e | k]; cbn [RealTimeDetector.step wellShapedEvent] in *.
  - unfold RealTimeDetector.startLoop in Hstep.
    destruct (loopStarted s) eqn:Hs.
    + injection Hstep as <-. unfold running. now rewrite Hs.
    + destruct Hone as [Hi Hf]. rewrite Hi, Hf in Hstep.
      injection Hstep as <-. now apply loop_running.
  - destruct (framesRequested s) as [| n] eqn:Hf; [discriminate |].
    destruct (loopStarted s) eqn:Hs; [| destruct Hone; discriminate].
    assert (inflight s = [] /\ n = 0%nat) as [Hi ->].
    { destruct (inflight s); cbn [length] in Hone; [split; [reflexivity | lia] | lia]. }
    rewrite Hi in Hstep. injection Hstep as <-. now apply loop_running.
  - destruct (inflight s !! k) as [tick |] eqn:Hk; [| discriminate].
    pose proof (lookup_lt_Some _ _ _ Hk) as Hlt.
    destruct (loopStarted s) eqn:Hs;
      [| destruct Hone as [Hi _]; rewrite Hi in Hk; discriminate].
    assert (length (delete k (inflight s)) = 0%nat /\ framesRequested s = 0%nat)
      as [Hd Hf].
    { rewrite length_delete by (exists tick; exact Hk). unfold M in *. lia. }
    apply length_zero_iff_nil in Hd.
    destruct (Forall_lookup_1 _ _ _ _ Hticks Hk (theWorld s) Htracked)
      as (w' & Hrun & Htracked').
    rewrite Hrun in Hstep. injection Hstep as <-.
    unfold running. cbn [theWorld inflight loopStarted framesRequested history].
    rewrite Hd, Hf. split; [exact Htracked' |]. split; [constructor |].
    split; [reflexivity |].
    repeat (constructor; [discriminate |]). exact Hh.
Qed.

Lemma steps_running (evs : list event) (s s' : controller) :
  Forall wellShapedEvent evs -> running s ->
  RealTimeDetector.steps COCO_CLASSES evs s = Some s' -> running s'.
Proof.
  intros Hevs. revert s.
  induction Hevs as [| ev evs Hev _ IH]; intros s Hs Hsteps;
    cbn [RealTimeDetector.steps] in Hsteps.
  - now injection Hsteps as <-.
  - destruct (RealTimeDetector.step COCO_CLASSES ev s) as [s1 |] eqn:Hstep; [| discriminate].
    exact (IH s1 (step_running ev s s1 Hev Hs Hstep) Hsteps).
Qed.

End LoopKeepsGoing.

(** X26.  With a model that returns output of the expected shape the loop
    of [startLoop] never stops: however the events are interleaved, once it
    is started exactly one tick is awaited or one frame requested, no tick
    has failed, and every tick that is awaited will run to its end. *)
Theorem loop_keeps_going (COCO_CLASSES : list string) (evs : list event) (w : world)
  (s : controller) :
  tracked w -> Forall wellShapedEvent evs ->
  RealTimeDetector.steps COCO_CLASSES evs (mounted w) = Some s ->
  loopStarted s = true ->
  (length (inflight s) + framesRequested s = 1)%nat /\
  Forall (fun m => m <> Failed) (history s) /\
  Forall completes (inflight s) /\
  tracked (theWorld s).
Proof.
  intros Htracked Hevs Hsteps Hs.
  destruct (steps_running COCO_CLASSES evs (mounted w) s Hevs) as (Ht & Hticks & Hone & Hh).
  - unfold running, mounted. cbn [theWorld inflight loopStarted framesRequested history].
    split; [exact Htracked |]. split; [constructor |]. split; [now split | constructor].
  - exact Hsteps.
  - rewrite Hs in Hone. now repeat split.
Qed.

Lemma loop_keeps_going_witness :
  exists s,
    RealTimeDetector.steps ["person"]
      [StartLoop (Example.yoloEnv Example.silent); Settle 0]
      (mounted Example.idle) = Some s /\
    (length (inflight s) + framesRequested s = 1)%nat /\
    Forall (fun m => m <> Failed) (history s) /\
    Forall completes (inflight s) /\
    tracked (theWorld s).
Proof.
  destruct (RealTimeDetector.steps ["person"]
              [StartLoop (Example.yoloEnv Example.silent); Settle 0]
              (mounted Example.idle)) as [s |] eqn:E.
  - exists s. split; [reflexivity |].
    apply (loop_keeps_going ["person"]
             [StartLoop (Example.yoloEnv Example.silent); Settle 0] Example.idle s).
    + exact idle_tracked.
    + constructor; [| repeat constructor].
      intros m [= <-]. exact silent_wellShaped.
    + exact E.
    + vm_compute in E. injection E as <-. reflexivity.
  - vm_compute in E. discriminate E.
Defined.

(** ** The status line after the model has been loaded, or not *)

(** X27.  When the promise of [loadModel()] settles, [loading] is cleared
    whether the model was loaded or not, so the page reports that loading
    is complete and detection starts in both cases.  After a failure
    ([tf.ready()] or [cocoSsd.load()] rejected) the model is still [null]:
    the error is on the console, and every later call of [detectObjects]
    returns at its guard without touching anything. *)
Theorem status_after_loading (ready : bool) (load : option CocoApp.ObjectDetection) :
  let p := ModelLoader.loadEffect ready load ModelLoader.mounted in
  ModelLoader.loading p = false /\
  ModelLoader.status p = "モデル読み込み完了。検出を開始します。" /\
  (ModelLoader.model p = None <-> ready = false \/ load = None) /\
  (ModelLoader.model p = None ->
   ModelLoader.Error "モデルの読み込みに失敗しました:" ∈ ModelLoader.lines p /\
   forall video canvas w,
     CocoApp.detectObjects (ModelLoader.model p) video canvas w = (Ok tt, w)).
Proof.
  destruct ready, load as [loaded |]; cbn zeta;
    (split; [reflexivity |]); (split; [reflexivity |]).
  1: { split; [split; [discriminate | intros [? | ?]; discriminate] | discriminate]. }
  all: split; [split; auto | intros _; split; [| reflexivity]].
  all: apply list_elem_of_In; simpl; auto.
Qed.

(** ** A confident proposal is never lost *)

Lemma pushProposal_confident (widthRatio heightRatio : Q) (acc : arrays)
  (proposal : list Q) (c : Q) :
  c ∈ classScoresOf proposal -> confidenceThreshold < c ->
  boxes (pushProposal widthRatio heightRatio acc proposal) <> [].
Proof.
  intros Hc Hconfident. unfold classScoresOf in Hc.
  destruct proposal as [| cx [| cy [| bw [| bh classScores]]]];
    try (now apply elem_of_nil in Hc).
  cbn [drop] in Hc. cbn [pushProposal].
  destruct (scanScores classScores 0 (-1) (-1)) as [maxScore classId] eqn:Hscan.
  destruct (scanScores_first _ _ _ _ _ _ Hscan) as [Hmax _].
  rewrite Forall_forall in Hmax. specialize (Hmax c Hc).
  assert (JS.ltb confidenceThreshold maxScore = true) as ->.
  { apply ltb_lt. lra. }
  cbn [boxes]. intros Hnil. now apply app_eq_nil in Hnil as [_ ?].
Qed.

Lemma collect_confident (widthRatio heightRatio : Q) (proposals : list (list Q))
  (proposal : list Q) (c : Q) :
  proposal ∈ proposals -> c ∈ classScoresOf proposal -> confidenceThreshold < c ->
  boxes (collect widthRatio heightRatio proposals) <> [].
Proof.
  intros Hin Hc Hconfident.
  apply list_elem_of_split in Hin as (before & after & ->).
  unfold collect. rewrite fold_left_app. cbn [fold_left].
  rewrite collect_from. cbn [boxes]. intros Hnil.
  apply app_eq_nil in Hnil as [Hnil _].
  exact (pushProposal_confident _ _ _ _ _ Hc Hconfident Hnil).
Qed.

(** X28.  Whenever some proposal has a class score above the threshold,
    [processOutput] returns at least one detection: the suppression always
    keeps the candidate it visits first. *)
Theorem processOutput_finds_confident (predictions : Tensor (list Q))
  (widthRatio heightRatio : Q) (w : world) (proposal : list Q) (c : Q) :
  wellFormed predictions w ->
  proposal ∈ proposalsOf predictions -> c ∈ classScoresOf proposal -> 0.5 < c ->
  exists finalBoxes finalScores finalClasses w',
    processOutput predictions widthRatio heightRatio w
      = (Ok (finalBoxes, finalScores, finalClasses), w') /\
    finalBoxes <> [] /\ finalScores <> [] /\ finalClasses <> [].
Proof.
  intros Hwf Hin Hc Hconfident.
  destruct (processOutput_run predictions widthRatio heightRatio w Hwf)
    as (fb & fs & fc & w' & Hrun & Hfb & Hfs & Hfc & _).
  exists fb, fs, fc, w'. split; [exact Hrun |].
  pose proof (collect_aligned widthRatio heightRatio (proposalsOf predictions)) as Hal.
  pose proof (collect_confident widthRatio heightRatio _ _ _ Hin Hc Hconfident) as Hsome.
  revert Hfb Hfs Hfc Hal Hsome. cbn zeta.
  generalize (collect widthRatio heightRatio (proposalsOf predictions)).
  intros acc Hfb Hfs Hfc Hal Hsome.
  pose proof (selection_nonempty acc Hal Hsome) as Hselected.
  destruct (gatherRows_lookup _ _ _ Hfb) as [Hlb _].
  destruct (gatherRows_lookup _ _ _ Hfs) as [Hls _].
  destruct (gatherRows_lookup _ _ _ Hfc) as [Hlc _].
  destruct (selection acc) as [| i rest]; [congruence |].
  cbn [length] in *.
  repeat split; intros ->; discriminate.
Qed.

Lemma processOutput_finds_confident_witness :
  exists finalBoxes finalScores finalClasses w',
    processOutput Example.single 1 1 Example.w0
      = (Ok (finalBoxes, finalScores, finalClasses), w') /\
    finalBoxes <> [] /\ finalScores <> [] /\ finalClasses <> [].
Proof.
  apply (processOutput_finds_confident Example.single 1 1 Example.w0
           (Example.proposalRow 100 100 50 50 0.9) 0.9).
  - apply example_wellFormed, few_proposals. simpl. lia.
  - apply (list_elem_of_lookup_2 _ 0%nat). vm_compute. reflexivity.
  - apply (list_elem_of_lookup_2 _ 0%nat). reflexivity.
  - reflexivity.
Defined.

(** ** Ticks that pile up in the timer loop *)


